(** * gl1.js: the packed command buffer, the instanced draw and the shader

    A shallow embedding of [src/gl1.js].  The file has three layers:

    - [JS]: the part of the ECMAScript semantics [drawImage] relies on
      (numbers, [||], the typed-array element conversions and the
      out-of-range rule of typed-array stores);
    - [GL] and the renderer object [gl1]: the functions [setup], [drawImage],
      [drawRect], [drawEverything], [resize], [loadTexFromJsImage], written
      as state passing over the fields of the [gl1] object, the WebGL context
      being the list of commands it has received;
    - [Shader]: the vertex and fragment programs of [vertCode]/[fragCode]
      over the real numbers, the GLSL built-ins [cos], [sin], [pow] being
      parameters of the vertex stage. *)

From Stdlib Require Import ZArith List Bool String Lia.
From Stdlib Require Import Floats.SpecFloat.
From Stdlib Require Import Reals Lra.
From stdpp Require Import base list.
Import ListNotations.

Local Open Scope Z_scope.

(** ** ECMAScript values and conversions *)

Module JS.

(** A Number is an IEEE 754 binary64 value.  [S754_finite s m e] denotes
    [(-1)^s * m * 2^e]; every conversion below depends only on the value
    denoted, not on the choice of [m] and [e]. *)
Definition number := spec_float.

(** The arguments of [drawImage] are numbers, or [undefined] when omitted. *)
Inductive value :=
| Undefined
| Number (x : number).

(** The Number with integer value [n]. *)
Definition int (n : Z) : number :=
  match n with
  | Z0 => S754_zero false
  | Zpos p => S754_finite false p 0
  | Zneg p => S754_finite true p 0
  end.

(** The integer literal [n] as an argument. *)
Definition num (n : Z) : value := Number (int n).

Definition NaN : number := S754_nan.
Definition Infinity : number := S754_infinity false.

(** ToNumber: [undefined] becomes NaN. *)
Definition ToNumber (v : value) : number :=
  match v with
  | Undefined => NaN
  | Number x => x
  end.

(** ToBoolean: [undefined], [+0], [-0] and NaN are falsy. *)
Definition ToBoolean (v : value) : bool :=
  match v with
  | Undefined => false
  | Number (S754_zero _) => false
  | Number S754_nan => false
  | Number _ => true
  end.

(** [a || b] *)
Definition or (a b : value) : value :=
  if ToBoolean a then a else b.

(** truncate(x) of a finite number, towards zero; 0 for NaN and the
    infinities, as ToInt16 and ToUint32 ask. *)
Definition truncate (x : number) : Z :=
  match x with
  | S754_finite s m e =>
      let a := if 0 <=? e then Zpos m * 2 ^ e else Zpos m / 2 ^ (- e) in
      if s then - a else a
  | _ => 0
  end.

Definition ToUint32 (x : number) : Z := truncate x mod 2 ^ 32.

Definition ToInt16 (x : number) : Z :=
  let int16bit := truncate x mod 2 ^ 16 in
  if 2 ^ 15 <=? int16bit then int16bit - 2 ^ 16 else int16bit.

(** Conversion to IEEE 754 binary32, round to nearest, ties to even. *)
Definition ToFloat32 (x : number) : spec_float :=
  match x with
  | S754_finite s m e => binary_round 24 128 s m e
  | _ => x
  end.

(** The 32 bits of a binary32 value: sign, 8 exponent bits, 23 fraction
    bits.  NaN is stored as the quiet NaN 0x7FC00000. *)
Definition float32_bits (x : spec_float) : Z :=
  let sign (s : bool) := if s then 2 ^ 31 else 0 in
  match x with
  | S754_zero s => sign s
  | S754_infinity s => sign s + 255 * 2 ^ 23
  | S754_nan => 255 * 2 ^ 23 + 2 ^ 22
  | S754_finite s m e =>
      if 2 ^ 23 <=? Zpos m
      then sign s + (e + 150) * 2 ^ 23 + (Zpos m - 2 ^ 23)
      else sign s + Zpos m
  end.

(** The [n] bytes of [v], least significant first (typed arrays use the
    byte order of the platform, little-endian on every WebGL platform). *)
Fixpoint le_bytes (n : nat) (v : Z) : list Z :=
  match n with
  | O => []
  | S n' => v mod 256 :: le_bytes n' (v / 256)
  end.

(** The value of [n] little-endian bytes. *)
Fixpoint le_value (bs : list Z) : Z :=
  match bs with
  | [] => 0
  | b :: bs' => b + 256 * le_value bs'
  end.

(** An ArrayBuffer is its bytes. *)
Definition ArrayBuffer := list Z.

(** [new ArrayBuffer(n)]: [n] zero bytes. *)
Definition new_ArrayBuffer (n : nat) : ArrayBuffer := replicate n 0.

(** A typed-array store [view[index] = v] on a view that covers the whole
    buffer with elements of [size] bytes.  The view has
    [length buf / size] elements; a store at an index that is not below
    that length does nothing. *)
Definition typed_store (size : nat) (index : nat) (bits : Z)
    (buf : ArrayBuffer) : ArrayBuffer :=
  if (index <? length buf / size)%nat
  then list_inserts (index * size) (le_bytes size bits) buf
  else buf.

Definition Int16Array_set (index : nat) (v : value) (buf : ArrayBuffer) :=
  typed_store 2 index (ToInt16 (ToNumber v)) buf.

Definition Uint32Array_set (index : nat) (v : value) (buf : ArrayBuffer) :=
  typed_store 4 index (ToUint32 (ToNumber v)) buf.

Definition Float32Array_set (index : nat) (v : value) (buf : ArrayBuffer) :=
  typed_store 4 index (float32_bits (ToFloat32 (ToNumber v))) buf.

(** The bytes of [view.subarray(begin, end)] for a view of elements of
    [size] bytes over the whole buffer: both ends are clamped to the
    length of the view. *)
Definition subarray_bytes (size : nat) (begin end_ : nat)
    (buf : ArrayBuffer) : list Z :=
  let len := (length buf / size)%nat in
  let b := Nat.min begin len in
  let e := Nat.min end_ len in
  take ((e - b) * size) (drop (b * size) buf).

End JS.

(** ** The WebGL context *)

Module GL.

Inductive enum :=
| COLOR_BUFFER_BIT | ARRAY_BUFFER | ELEMENT_ARRAY_BUFFER | TRIANGLES
| UNSIGNED_BYTE | SHORT | FLOAT | STATIC_DRAW | DYNAMIC_DRAW
| VERTEX_SHADER | FRAGMENT_SHADER | SRC_ALPHA | ONE_MINUS_SRC_ALPHA
| BLEND | DEPTH_TEST | TEXTURE_2D | TEXTURE0 | RGBA
| TEXTURE_MAG_FILTER | TEXTURE_MIN_FILTER | NEAREST.

Definition enum_eqb (a b : enum) : bool :=
  match a, b with
  | COLOR_BUFFER_BIT, COLOR_BUFFER_BIT | ARRAY_BUFFER, ARRAY_BUFFER
  | ELEMENT_ARRAY_BUFFER, ELEMENT_ARRAY_BUFFER | TRIANGLES, TRIANGLES
  | UNSIGNED_BYTE, UNSIGNED_BYTE | SHORT, SHORT | FLOAT, FLOAT
  | STATIC_DRAW, STATIC_DRAW | DYNAMIC_DRAW, DYNAMIC_DRAW
  | VERTEX_SHADER, VERTEX_SHADER | FRAGMENT_SHADER, FRAGMENT_SHADER
  | SRC_ALPHA, SRC_ALPHA | ONE_MINUS_SRC_ALPHA, ONE_MINUS_SRC_ALPHA
  | BLEND, BLEND | DEPTH_TEST, DEPTH_TEST | TEXTURE_2D, TEXTURE_2D
  | TEXTURE0, TEXTURE0 | RGBA, RGBA
  | TEXTURE_MAG_FILTER, TEXTURE_MAG_FILTER
  | TEXTURE_MIN_FILTER, TEXTURE_MIN_FILTER | NEAREST, NEAREST => true
  | _, _ => false
  end.

(** The objects the context hands out.  [setup] makes one of each; every
    [loadTexFromJsImage] makes a texture. *)
Inductive object :=
| vertShader | fragShader | shaderProgram
| indexBuffer | sizeMultBuffer | instanceBuffer | texture.

(** [getUniformLocation(program, name)] and [getAttribLocation(program,
    name)]: there is one program, so a location is the name. *)
Definition location : Type := string.

(** An image or a canvas given to [texImage2D]: its pixel size. *)
Record Image := { image_width : Z; image_height : Z }.

(** The commands the context receives.  A GL float is a real number. *)
Inductive call :=
| clearColor (r g b a : R)
| clear (mask : enum)
| createShader (o : object) (type : enum)
| shaderSource (o : object)
| compileShader (o : object)
| createProgram (o : object)
| attachShader (p o : object)
| linkProgram (p : object)
| useProgram (p : object)
| blendFunc (sfactor dfactor : enum)
| enable (cap : enum)
| disable (cap : enum)
| createBuffer (o : object)
| bindBuffer (target : enum) (o : object)
| bufferData_bytes (target : enum) (data : list Z) (usage : enum)
| bufferData_floats (target : enum) (data : list R) (usage : enum)
| bufferSubData (target : enum) (offset : nat) (data : list Z)
| enableVertexAttribArray (loc : location)
| vertexAttribPointer (loc : location) (size : nat) (type : enum)
    (normalized : bool) (stride offset : nat)
| vertexAttribDivisorANGLE (loc : location) (divisor : nat)
| drawElementsInstancedANGLE (mode : enum) (count : nat) (type : enum)
    (offset : nat) (primcount : nat)
| viewport (x y width height : Z)
| uniform1f (loc : location) (v : R)
| uniform2f (loc : location) (v0 v1 : R)
| createTexture (o : object)
| bindTexture (target : enum) (o : object)
| texImage2D (target : enum) (level : Z) (internalformat format type : enum)
    (image : Image)
| generateMipmap (target : enum)
| activeTexture (unit : enum)
| texParameteri (target pname param : enum).

(** The context is the commands it has received, oldest first. *)
Definition context := list call.

(** The value the last [uniform1f] gave to the uniform [name]. *)
Definition uniform_float (name : string) (ctx : context) : option R :=
  fold_left (fun acc c =>
    match c with
    | uniform1f n v => if String.eqb n name then Some v else acc
    | _ => acc
    end) ctx None.

(** The rectangle the last [viewport] set. *)
Definition current_viewport (ctx : context) : option (Z * Z * Z * Z) :=
  fold_left (fun acc c =>
    match c with
    | viewport x y w h => Some (x, y, w, h)
    | _ => acc
    end) ctx None.

(** Commands that allocate or fill a buffer store, and commands that
    upload texture pixels. *)
Definition is_buffer_upload (c : call) : bool :=
  match c with
  | createBuffer _ | bufferData_bytes _ _ _ | bufferData_floats _ _ _
  | bufferSubData _ _ _ => true
  | _ => false
  end.

Definition is_texture_upload (c : call) : bool :=
  match c with
  | createTexture _ | texImage2D _ _ _ _ _ _ => true
  | _ => false
  end.

(** The attribute pointer last declared for [name]:
    [(size, type, stride, offset)]. *)
Definition attribute (name : string) (ctx : context)
    : option (nat * enum * nat * nat) :=
  fold_left (fun acc c =>
    match c with
    | vertexAttribPointer n size type _ stride offset =>
        if String.eqb n name then Some (size, type, stride, offset) else acc
    | _ => acc
    end) ctx None.

(** The instancing divisor last declared for [name]. *)
Definition divisor (name : string) (ctx : context) : option nat :=
  fold_left (fun acc c =>
    match c with
    | vertexAttribDivisorANGLE n d => if String.eqb n name then Some d else acc
    | _ => acc
    end) ctx None.

End GL.

(** ** The renderer object *)

(** The canvas element, shared with the page: the page changes its size,
    [resize] reads it. *)
Record Canvas := { width : Z; height : Z }.

(** The fields of the [gl1] object once [setup] has run.  [positions],
    [rotations] and [rgbas] are three views on one ArrayBuffer: the object
    keeps the buffer, the views are the typed stores of [JS]. *)
Record gl1 := {
  maxDraws : nat;
  draws : nat;
  canvas : Canvas;
  gl : GL.context;
  shaderProgram : GL.object;
  arrayBuffer : JS.ArrayBuffer;
  jsImage : option GL.Image;
  texSizeX : Z;
  texSizeY : Z;
  ready : bool
}.

Definition set_draws (n : nat) (this : gl1) : gl1 :=
  {| maxDraws := maxDraws this; draws := n; canvas := canvas this;
     gl := gl this; shaderProgram := shaderProgram this;
     arrayBuffer := arrayBuffer this; jsImage := jsImage this;
     texSizeX := texSizeX this; texSizeY := texSizeY this;
     ready := ready this |}.

Definition set_arrayBuffer (buf : JS.ArrayBuffer) (this : gl1) : gl1 :=
  {| maxDraws := maxDraws this; draws := draws this; canvas := canvas this;
     gl := gl this; shaderProgram := shaderProgram this;
     arrayBuffer := buf; jsImage := jsImage this;
     texSizeX := texSizeX this; texSizeY := texSizeY this;
     ready := ready this |}.

Definition set_gl (ctx : GL.context) (this : gl1) : gl1 :=
  {| maxDraws := maxDraws this; draws := draws this; canvas := canvas this;
     gl := ctx; shaderProgram := shaderProgram this;
     arrayBuffer := arrayBuffer this; jsImage := jsImage this;
     texSizeX := texSizeX this; texSizeY := texSizeY this;
     ready := ready this |}.

Definition set_jsImage (image : GL.Image) (this : gl1) : gl1 :=
  {| maxDraws := maxDraws this; draws := draws this; canvas := canvas this;
     gl := gl this; shaderProgram := shaderProgram this;
     arrayBuffer := arrayBuffer this; jsImage := Some image;
     texSizeX := texSizeX this; texSizeY := texSizeY this;
     ready := ready this |}.

Definition set_texSize (x y : Z) (this : gl1) : gl1 :=
  {| maxDraws := maxDraws this; draws := draws this; canvas := canvas this;
     gl := gl this; shaderProgram := shaderProgram this;
     arrayBuffer := arrayBuffer this; jsImage := jsImage this;
     texSizeX := x; texSizeY := y; ready := ready this |}.

Definition set_ready (b : bool) (this : gl1) : gl1 :=
  {| maxDraws := maxDraws this; draws := draws this; canvas := canvas this;
     gl := gl this; shaderProgram := shaderProgram this;
     arrayBuffer := arrayBuffer this; jsImage := jsImage this;
     texSizeX := texSizeX this; texSizeY := texSizeY this; ready := b |}.

Definition set_maxDraws (n : nat) (this : gl1) : gl1 :=
  {| maxDraws := n; draws := draws this; canvas := canvas this;
     gl := gl this; shaderProgram := shaderProgram this;
     arrayBuffer := arrayBuffer this; jsImage := jsImage this;
     texSizeX := texSizeX this; texSizeY := texSizeY this;
     ready := ready this |}.

(** The calls [gl.f(...)] of a method, in order. *)
Definition gl_calls (cs : list GL.call) (this : gl1) : gl1 :=
  set_gl (gl this ++ cs) this.

(** The page gives the canvas a new size. *)
Definition canvas_resized (w h : Z) (this : gl1) : gl1 :=
  {| maxDraws := maxDraws this; draws := draws this;
     canvas := {| width := w; height := h |};
     gl := gl this; shaderProgram := shaderProgram this;
     arrayBuffer := arrayBuffer this; jsImage := jsImage this;
     texSizeX := texSizeX this; texSizeY := texSizeY this;
     ready := ready this |}.

Section Methods.

Import JS.

Local Open Scope nat_scope.

(** [drawImage], lines 35-64. *)
Definition drawImage (this : gl1)
    (texPartX texPartY texPartSizeX texPartSizeY
     drawX drawY sizeX sizeY rgba rotation : value) : gl1 :=
  let i := draws this * 6 in
  let buf := arrayBuffer this in
  (* this.rgbas[i+4] = rgba || 0xFFFFFF7F *)
  let buf := Uint32Array_set (i + 4) (or rgba (Number (int 0xFFFFFF7F))) buf in
  (* this.rotations[i+5] = rotation || 0 *)
  let buf := Float32Array_set (i + 5) (or rotation (Number (int 0))) buf in
  (* i *= 2 *)
  let i := i * 2 in
  let buf := Int16Array_set i drawX buf in
  let buf := Int16Array_set (i + 1) drawY buf in
  let buf := Int16Array_set (i + 2) sizeX buf in
  let buf := Int16Array_set (i + 3) sizeY buf in
  let buf := Int16Array_set (i + 4) texPartX buf in
  let buf := Int16Array_set (i + 5) texPartY buf in
  let buf := Int16Array_set (i + 6) texPartSizeX buf in
  let buf := Int16Array_set (i + 7) texPartSizeY buf in
  (* this.draws++ *)
  set_draws (draws this + 1) (set_arrayBuffer buf this).

(** [drawRect], lines 67-70. *)
Definition drawRect (this : gl1)
    (drawX drawY sizeX sizeY rgba rotation : value) : gl1 :=
  drawImage this (num 0) (num 0) (num 1) (num 1)
    drawX drawY sizeX sizeY rgba rotation.

(** [drawEverything], lines 72-87. *)
Definition drawEverything (this : gl1) : gl1 :=
  let this := gl_calls [
    GL.clear GL.COLOR_BUFFER_BIT;
    GL.bufferSubData GL.ARRAY_BUFFER 0
      (subarray_bytes 4 0 (draws this * 6) (arrayBuffer this));
    GL.drawElementsInstancedANGLE GL.TRIANGLES 6 GL.UNSIGNED_BYTE 0
      (draws this)
  ] this in
  set_draws 0 this.

(** [resize], lines 89-104. *)
Definition resize (this : gl1) : gl1 :=
  gl_calls [
    GL.viewport 0 0 (width (canvas this)) (height (canvas this));
    GL.uniform1f "uCanvasSizeX"%string (IZR (width (canvas this)) / 2);
    GL.uniform1f "uCanvasSizeY"%string (IZR (height (canvas this)) / 2)
  ] this.

(** [loadTexFromJsImage], lines 279-301. *)
Definition loadTexFromJsImage (this : gl1) (image : GL.Image) : gl1 :=
  let this := set_jsImage image this in
  let this := gl_calls [
    GL.createTexture GL.texture;
    GL.bindTexture GL.TEXTURE_2D GL.texture;
    GL.texImage2D GL.TEXTURE_2D 0 GL.RGBA GL.RGBA GL.UNSIGNED_BYTE image;
    GL.generateMipmap GL.TEXTURE_2D;
    GL.activeTexture GL.TEXTURE0;
    GL.texParameteri GL.TEXTURE_2D GL.TEXTURE_MAG_FILTER GL.NEAREST;
    GL.texParameteri GL.TEXTURE_2D GL.TEXTURE_MIN_FILTER GL.NEAREST
  ] this in
  let this :=
    set_texSize (GL.image_width image) (GL.image_height image) this in
  let this := gl_calls [
    GL.uniform2f "uTexSize"%string (IZR (texSizeX this)) (IZR (texSizeY this))
  ] this in
  resize this.

(** The [onload] handler [setup] installs on the image, lines 270-274. *)
Definition image_onload (this : gl1) (image : GL.Image) : gl1 :=
  set_ready true (loadTexFromJsImage this image).

(** The closure [setupAttribute] of [setup], lines 237-248: it adds its
    calls to the context and advances the captured [byteOffset]. *)
Definition setupAttribute (bytesPerImage : nat)
    (name : string) (dataType : GL.enum) (amount : nat)
    (s : GL.context * nat) : GL.context * nat :=
  let '(ctx, byteOffset) := s in
  let location := name in
  let ctx := ctx ++ [
    GL.enableVertexAttribArray location;
    GL.vertexAttribPointer location amount dataType false
      bytesPerImage byteOffset;
    GL.vertexAttribDivisorANGLE location 1
  ] in
  let amount := if GL.enum_eqb dataType GL.SHORT then amount * 2 else amount in
  let amount := if GL.enum_eqb dataType GL.FLOAT then amount * 4 else amount in
  (ctx, byteOffset + amount).

(** The constants of [setup], lines 205-217. *)
Definition shortsPerImagePosition := 2.
Definition shortsPerImageSize := 2.
Definition shortsPerImageTexPos := 4.
Definition bytesPerImageRgba := 4.
Definition floatsPerImageRotation := 1.

Definition bytesPerImage :=
  shortsPerImagePosition * 2 + shortsPerImageSize * 2
  + shortsPerImageTexPos * 2 + bytesPerImageRgba
  + floatsPerImageRotation * 4.

(** [setup], lines 105-277, for the object [this] and the canvas of the
    page.  The context of the canvas starts with no command.  The image
    named by [texFileName] loads later: its arrival is [image_onload]. *)
Definition setup (this : gl1) (canvas0 : Canvas) : gl1 :=
  let ctx : GL.context := [
    GL.clearColor 0.5 0.7 1 1;
    GL.createShader GL.vertShader GL.VERTEX_SHADER;
    GL.shaderSource GL.vertShader;
    GL.compileShader GL.vertShader;
    GL.createShader GL.fragShader GL.FRAGMENT_SHADER;
    GL.shaderSource GL.fragShader;
    GL.compileShader GL.fragShader;
    GL.createProgram GL.shaderProgram;
    GL.attachShader GL.shaderProgram GL.vertShader;
    GL.attachShader GL.shaderProgram GL.fragShader;
    GL.linkProgram GL.shaderProgram;
    GL.useProgram GL.shaderProgram;
    GL.blendFunc GL.SRC_ALPHA GL.ONE_MINUS_SRC_ALPHA;
    GL.enable GL.BLEND;
    GL.disable GL.DEPTH_TEST;
    GL.createBuffer GL.indexBuffer;
    GL.bindBuffer GL.ELEMENT_ARRAY_BUFFER GL.indexBuffer;
    GL.bufferData_bytes GL.ELEMENT_ARRAY_BUFFER [0; 1; 2; 2; 1; 3]%Z
      GL.STATIC_DRAW;
    GL.createBuffer GL.sizeMultBuffer;
    GL.bindBuffer GL.ARRAY_BUFFER GL.sizeMultBuffer;
    GL.bufferData_floats GL.ARRAY_BUFFER [0; 0; 0; 1; 1; 0; 1; 1]%R
      GL.STATIC_DRAW;
    GL.enableVertexAttribArray "aSizeMult"%string;
    GL.vertexAttribPointer "aSizeMult"%string 2 GL.FLOAT false 0 0
  ] in
  let arrayBuffer0 := new_ArrayBuffer (maxDraws this * bytesPerImage) in
  let ctx := ctx ++ [
    GL.createBuffer GL.instanceBuffer;
    GL.bindBuffer GL.ARRAY_BUFFER GL.instanceBuffer;
    GL.bufferData_bytes GL.ARRAY_BUFFER arrayBuffer0 GL.DYNAMIC_DRAW
  ] in
  let byteOffset := 0 in
  let s := (ctx, byteOffset) in
  let s := setupAttribute bytesPerImage "aPos" GL.SHORT
             shortsPerImagePosition s in
  let s := setupAttribute bytesPerImage "aSize" GL.SHORT
             shortsPerImageSize s in
  let s := setupAttribute bytesPerImage "aTexPos" GL.SHORT
             shortsPerImageTexPos s in
  let s := setupAttribute bytesPerImage "aRgba" GL.UNSIGNED_BYTE
             bytesPerImageRgba s in
  let s := setupAttribute bytesPerImage "aRotation" GL.FLOAT
             floatsPerImageRotation s in
  {| maxDraws := maxDraws this; draws := draws this; canvas := canvas0;
     gl := fst s; shaderProgram := GL.shaderProgram;
     arrayBuffer := arrayBuffer0; jsImage := jsImage this;
     texSizeX := texSizeX this; texSizeY := texSizeY this;
     ready := ready this |}.

(** The object literal, lines 23-28: [maxDraws] and [draws].  The other
    fields do not exist before [setup]; here they hold empty values. *)
Definition gl1_literal : gl1 :=
  {| maxDraws := 10000; draws := 0;
     canvas := {| width := 0; height := 0 |};
     gl := []; shaderProgram := GL.shaderProgram; arrayBuffer := [];
     jsImage := None; texSizeX := 0; texSizeY := 0; ready := false |}.

(** A call of a method completes normally with the new object, or throws.
    No statement of [drawImage] throws: it has no [throw], and [||], [*],
    [++] and stores into typed arrays, in or out of range, do not throw. *)
Inductive completion :=
| normal (this : gl1)
| throw (error : string).

Definition call_drawImage (this : gl1)
    (texPartX texPartY texPartSizeX texPartSizeY
     drawX drawY sizeX sizeY rgba rotation : value) : completion :=
  normal (drawImage this texPartX texPartY texPartSizeX texPartSizeY
            drawX drawY sizeX sizeY rgba rotation).

(** *** What the GPU reads from the instance buffer

    With divisor 1 an attribute declared by
    [vertexAttribPointer(loc, size, type, false, stride, offset)] takes,
    for instance [k], [size] components of [type] starting at byte
    [k * stride + offset]. *)

Definition component_size (type : GL.enum) : nat :=
  if GL.enum_eqb type GL.SHORT then 2
  else if GL.enum_eqb type GL.FLOAT then 4
  else 1.

(** A SHORT component is a signed 16-bit integer, an UNSIGNED_BYTE
    component a byte; a FLOAT component is read here as its 32 bits. *)
Definition component_value (type : GL.enum) (bs : list Z) : Z :=
  let v := le_value bs in
  if GL.enum_eqb type GL.SHORT
  then (if (2 ^ 15 <=? v)%Z then (v - 2 ^ 16)%Z else v)
  else v.

Fixpoint fetch_components (type : GL.enum) (n : nat) (bs : list Z) : list Z :=
  match n with
  | O => []
  | S n' =>
      component_value type (take (component_size type) bs)
      :: fetch_components type n' (drop (component_size type) bs)
  end.

Definition fetch_attribute (a : nat * GL.enum * nat * nat) (k : nat)
    (buf : list Z) : list Z :=
  let '(size, type, stride, offset) := a in
  fetch_components type size (drop (k * stride + offset) buf).

(** The attribute [name] of instance [k], as declared in the context of
    [this] and read from its buffer at the last upload of the whole
    prefix. *)
Definition instance_attribute (this : gl1) (name : string) (k : nat)
    : option (list Z) :=
  match GL.attribute name (gl this) with
  | Some a => Some (fetch_attribute a k (arrayBuffer this))
  | None => None
  end.

End Methods.

(** ** The shader program *)

Module Shader.

Local Open Scope R_scope.

Record vec2 := Vec2 { x2 : R; y2 : R }.
Record vec4 := Vec4 { x : R; y : R; z : R; w : R }.

(** GLSL arithmetic on vectors is componentwise; a scalar operand applies
    to every component. *)
Definition add2 (a b : vec2) := Vec2 (x2 a + x2 b) (y2 a + y2 b).
Definition mul2 (a b : vec2) := Vec2 (x2 a * x2 b) (y2 a * y2 b).
Definition div2 (a b : vec2) := Vec2 (x2 a / x2 b) (y2 a / y2 b).
Definition sub2s (a : vec2) (s : R) := Vec2 (x2 a - s) (y2 a - s).
Definition div2s (a : vec2) (s : R) := Vec2 (x2 a / s) (y2 a / s).
Definition mul4 (a b : vec4) :=
  Vec4 (x a * x b) (y a * y b) (z a * z b) (w a * w b).
Definition xy (a : vec4) := Vec2 (x a) (y a).
Definition zw (a : vec4) := Vec2 (z a) (w a).

Definition Rneb (a b : R) : bool := if Req_dec_T a b then false else true.
Definition Rgtb (a b : R) : bool := if Rgt_dec a b then true else false.

(** The attributes of one vertex of one instance. *)
Record attributes := {
  aSizeMult : vec2;
  aPos : vec2;
  aSize : vec2;
  aTexPos : vec4;
  aRgba : vec4;
  aRotation : R
}.

Record uniforms := {
  uCanvasSizeX : R;
  uCanvasSizeY : R;
  uTexSize : vec2
}.

Record varyings := {
  gl_Position : vec4;
  fragTexturePos : vec2;
  fragAbgr : vec4
}.

Section VertexStage.

(** The built-in functions of GLSL, which the language fixes only up to a
    precision of the implementation. *)
Variables cos sin : R -> R.
Variable pow : R -> R -> R.

(** The local [drawPos] of [main], lines 139-147: the screen position of
    the corner. *)
Definition drawPos (a : attributes) : vec2 :=
  if Rneb (aRotation a) 0 then
    let goX := cos (aRotation a) in
    let goY := sin (aRotation a) in
    let cornerPos := mul2 (aSize a) (sub2s (aSizeMult a) 0.5) in
    add2 (add2 (aPos a)
            (Vec2 (goX * x2 cornerPos - goY * y2 cornerPos)
                  (goY * x2 cornerPos + goX * y2 cornerPos)))
         (div2s (aSize a) 2)
  else
    add2 (aPos a) (mul2 (aSize a) (aSizeMult a)).

(** The tint decoded from [aRgba], lines 150-154. *)
Definition decode_tint (aRgba : vec4) : vec4 :=
  if Rgtb (x aRgba) 127 then
    let colorMult := pow 2 ((x aRgba - 127) / 16) / 255 in
    Vec4 (w aRgba * colorMult) (z aRgba * colorMult) (y aRgba * colorMult) 1
  else
    Vec4 (w aRgba / 255) (z aRgba / 255) (y aRgba / 255) (x aRgba / 127).

(** [main] of the vertex shader, lines 138-155. *)
Definition vert_main (u : uniforms) (a : attributes) : varyings :=
  let drawPos := drawPos a in
  {| gl_Position :=
       Vec4 (x2 drawPos / uCanvasSizeX u - 1) (1 - y2 drawPos / uCanvasSizeY u)
            0 1;
     fragTexturePos :=
       div2 (add2 (xy (aTexPos a)) (mul2 (zw (aTexPos a)) (aSizeMult a)))
            (uTexSize u);
     fragAbgr := decode_tint (aRgba a) |}.

End VertexStage.

(** [main] of the fragment shader, lines 169-171; [uSampler] is the
    texture, a colour at every coordinate. *)
Definition frag_main (uSampler : vec2 -> vec4) (v : varyings) : vec4 :=
  mul4 (uSampler (fragTexturePos v)) (fragAbgr v).

(** The blending [setup] selects, [blendFunc(SRC_ALPHA,
    ONE_MINUS_SRC_ALPHA)]: what a fragment leaves in the canvas. *)
Definition blend (src dst : vec4) : vec4 :=
  Vec4 (x src * w src + x dst * (1 - w src))
       (y src * w src + y dst * (1 - w src))
       (z src * w src + z dst * (1 - w src))
       (w src * w src + w dst * (1 - w src)).

(** The four corner multipliers [new Float32Array([0,0, 0,1, 1,0, 1,1])]
    read two floats per vertex (line 203). *)
Fixpoint pairs (l : list R) : list vec2 :=
  match l with
  | a :: b :: l' => Vec2 a b :: pairs l'
  | _ => []
  end.

Definition sizeMults : list vec2 := pairs [0; 0; 0; 1; 1; 0; 1; 1].

(** The attributes of instance data, with the components as the GPU
    converts them: integers to the float of the same value. *)
Definition instance (m : vec2) (pos size : Z * Z) (texPos : Z * Z * Z * Z)
    (a b g r : Z) (rotation : R) : attributes :=
  {| aSizeMult := m;
     aPos := Vec2 (IZR (fst pos)) (IZR (snd pos));
     aSize := Vec2 (IZR (fst size)) (IZR (snd size));
     aTexPos := let '(tx, ty, tw, th) := texPos in
                Vec4 (IZR tx) (IZR ty) (IZR tw) (IZR th);
     aRgba := Vec4 (IZR a) (IZR b) (IZR g) (IZR r);
     aRotation := rotation |}.

(** The mean of a list of points. *)
Definition mean (ps : list vec2) : vec2 :=
  div2s (fold_right add2 (Vec2 0 0) ps) (INR (length ps)).

End Shader.

(** ** Vocabulary of the properties *)

Section Vocabulary.

Import JS.

Local Open Scope nat_scope.

(** The record of the wire layout, 24 bytes: eight signed 16-bit integers
    (position, size, texture rectangle), the packed tint, the rotation as a
    binary32; every multi-byte field least significant byte first. *)
Definition SpriteRecord_bytes
    (texPartX texPartY texPartSizeX texPartSizeY
     drawX drawY sizeX sizeY rgba rotation : value) : list Z :=
  le_bytes 2 (ToInt16 (ToNumber drawX))
  ++ le_bytes 2 (ToInt16 (ToNumber drawY))
  ++ le_bytes 2 (ToInt16 (ToNumber sizeX))
  ++ le_bytes 2 (ToInt16 (ToNumber sizeY))
  ++ le_bytes 2 (ToInt16 (ToNumber texPartX))
  ++ le_bytes 2 (ToInt16 (ToNumber texPartY))
  ++ le_bytes 2 (ToInt16 (ToNumber texPartSizeX))
  ++ le_bytes 2 (ToInt16 (ToNumber texPartSizeY))
  ++ le_bytes 4 (ToUint32 (ToNumber (or rgba (Number (int 0xFFFFFF7F)))))
  ++ le_bytes 4
       (float32_bits (ToFloat32 (ToNumber (or rotation (Number (int 0)))))).

(** The packed tint 0xRRGGBBAA of four channel bytes (line 32: green is
    0x00FF007F). *)
Definition rgba_of (r g b a : Z) : Z :=
  (((r * 256 + g) * 256 + b) * 256 + a)%Z.

(** [n] reduced to a signed 16-bit integer. *)
Definition wrap16 (n : Z) : Z := ((n + 2 ^ 15) mod 2 ^ 16 - 2 ^ 15)%Z.

(** The states of the renderer: [setup] on the object literal with a
    chosen [maxDraws], then any sequence of calls of the methods and of
    size changes of the canvas. *)
Inductive reachable : gl1 → Prop :=
| reach_setup n c :
    reachable (setup (set_maxDraws n gl1_literal) c)
| reach_drawImage this tx ty tw th dx dy sx sy rgba rotation :
    reachable this →
    reachable (drawImage this tx ty tw th dx dy sx sy rgba rotation)
| reach_drawEverything this :
    reachable this → reachable (drawEverything this)
| reach_resize this :
    reachable this → reachable (resize this)
| reach_loadTexFromJsImage this image :
    reachable this → reachable (loadTexFromJsImage this image)
| reach_image_onload this image :
    reachable this → reachable (image_onload this image)
| reach_canvas_resized this w h :
    reachable this → reachable (canvas_resized w h this).

(** The fields of the object other than [draws] and the bytes of the
    buffer. *)
Definition rest (this : gl1) :=
  (maxDraws this, canvas this, gl this, shaderProgram this,
   jsImage this, texSizeX this, texSizeY this, ready this).

(** The pointers and divisors a context declares for the five
    per-instance attributes. *)
Definition declared_layout (ctx : GL.context)
    : list (option (nat * GL.enum * nat * nat) * option nat) :=
  map (λ name, (GL.attribute name ctx, GL.divisor name ctx))
    ["aPos"; "aSize"; "aTexPos"; "aRgba"; "aRotation"]%string.

(** The uploads into the bound vertex buffer and the instanced draws among
    a list of commands. *)
Definition uploads (cs : list GL.call) : list (nat * list Z) :=
  omap (λ c, match c with
             | GL.bufferSubData _ offset data => Some (offset, data)
             | _ => None
             end) cs.

Definition submissions (cs : list GL.call) : list (GL.enum * nat * nat) :=
  omap (λ c, match c with
             | GL.drawElementsInstancedANGLE mode count _ _ primcount =>
                 Some (mode, count, primcount)
             | _ => None
             end) cs.

(** The calls a method added to the context of [this]. *)
Definition new_calls (this this' : gl1) : list GL.call :=
  drop (length (gl this)) (gl this').

(** The two scale uniforms of the vertex shader. *)
Definition scale_uniforms (this : gl1) : option R * option R :=
  (GL.uniform_float "uCanvasSizeX" (gl this),
   GL.uniform_float "uCanvasSizeY" (gl this)).

End Vocabulary.


(** ** Frames, and the uniforms the shader sees *)

Section Frames.

Import JS.

Local Open Scope nat_scope.

(** The arguments of one call of [drawImage]. *)
Record Sprite := {
  sp_texPartX : value; sp_texPartY : value;
  sp_texPartSizeX : value; sp_texPartSizeY : value;
  sp_drawX : value; sp_drawY : value;
  sp_sizeX : value; sp_sizeY : value;
  sp_rgba : value; sp_rotation : value
}.

Definition draw (this : gl1) (s : Sprite) : gl1 :=
  drawImage this (sp_texPartX s) (sp_texPartY s) (sp_texPartSizeX s)
    (sp_texPartSizeY s) (sp_drawX s) (sp_drawY s) (sp_sizeX s) (sp_sizeY s)
    (sp_rgba s) (sp_rotation s).

(** The calls of [drawImage] of one frame, in order. *)
Definition draw_all (this : gl1) (ss : list Sprite) : gl1 :=
  fold_left draw ss this.

Definition Sprite_bytes (s : Sprite) : list Z :=
  SpriteRecord_bytes (sp_texPartX s) (sp_texPartY s) (sp_texPartSizeX s)
    (sp_texPartSizeY s) (sp_drawX s) (sp_drawY s) (sp_sizeX s) (sp_sizeY s)
    (sp_rgba s) (sp_rotation s).

(** The pair the last [uniform2f] gave to the uniform [name]. *)
Definition uniform_float2 (name : string) (ctx : GL.context)
    : option (R * R) :=
  fold_left (λ acc c,
    match c with
    | GL.uniform2f n v0 v1 => if String.eqb n name then Some (v0, v1) else acc
    | _ => acc
    end) ctx None.

(** The uniforms of the program in the context of [this]; a uniform that
    was never set is 0. *)
Definition current_uniforms (this : gl1) : Shader.uniforms :=
  {| Shader.uCanvasSizeX :=
       default 0%R (GL.uniform_float "uCanvasSizeX" (gl this));
     Shader.uCanvasSizeY :=
       default 0%R (GL.uniform_float "uCanvasSizeY" (gl this));
     Shader.uTexSize :=
       match uniform_float2 "uTexSize" (gl this) with
       | Some (v0, v1) => Shader.Vec2 v0 v1
       | None => Shader.Vec2 0 0
       end |}.

(** An argument that is not a finite number: omitted, NaN or an
    infinity. *)
Definition not_finite (v : value) : Prop :=
  v = Undefined ∨ v = Number NaN ∨ ∃ s, v = Number (S754_infinity s).

(** An argument [||] replaces by its right operand: omitted, NaN, [+0] or
    [-0]. *)
Definition falsy (v : value) : Prop :=
  v = Undefined ∨ v = Number NaN ∨ ∃ s, v = Number (S754_zero s).


End Frames.

(** * Properties *)

(** ** Typed-array stores *)

Section Stores.

Import JS.

Local Open Scope nat_scope.

Implicit Types (buf : ArrayBuffer) (size index j k : nat) (v bits : Z).

Lemma length_le_bytes size bits : length (le_bytes size bits) = size.
Proof.
  revert bits; induction size as [|n IH]; intros bits; simpl; [done|].
  by rewrite IH.
Qed.

Lemma length_typed_store size index bits buf :
  length (typed_store size index bits buf) = length buf.
Proof.
  unfold typed_store.
  destruct (index <? length buf / size); [apply length_inserts | done].
Qed.

(** A store touches only the bytes of its element. *)
Lemma typed_store_lookup_outside size index bits buf j :
  j < index * size ∨ index * size + size ≤ j →
  typed_store size index bits buf !! j = buf !! j.
Proof.
  intros Hj. unfold typed_store.
  destruct (index <? length buf / size); [|done].
  destruct Hj as [Hj|Hj].
  - by apply list_lookup_inserts_lt.
  - apply list_lookup_inserts_ge. by rewrite length_le_bytes.
Qed.

(** A store at an index past the end of the view changes nothing. *)
Lemma typed_store_out_of_range size index bits buf :
  length buf / size ≤ index → typed_store size index bits buf = buf.
Proof.
  intros H. unfold typed_store.
  destruct (Nat.ltb_spec index (length buf / size)); [lia | done].
Qed.

Lemma list_inserts_app_within {A} (l1 l2 k : list A) i :
  i + length k ≤ length l1 →
  list_inserts i k (l1 ++ l2) = list_inserts i k l1 ++ l2.
Proof.
  revert i; induction k as [|a k IH]; intros i H; simpl in *; [done|].
  rewrite IH by lia.
  apply insert_app_l. rewrite length_inserts. lia.
Qed.

(** A store whose element lies in the middle part of a buffer. *)
Lemma typed_store_middle size index bits (pre slot suf : list Z) off :
  size ≠ 0 →
  index * size = length pre + off →
  off + size ≤ length slot →
  typed_store size index bits (pre ++ slot ++ suf)
  = pre ++ list_inserts off (le_bytes size bits) slot ++ suf.
Proof.
  intros Hs Hi Hoff. unfold typed_store.
  destruct (Nat.ltb_spec index (length (pre ++ slot ++ suf) / size)) as [_|H].
  - rewrite Hi, list_inserts_app_r.
    f_equal. apply list_inserts_app_within. by rewrite length_le_bytes.
  - exfalso. revert H. apply Nat.lt_nge.
    apply (Nat.lt_le_trans _ (index + 1)); [lia|].
    apply Nat.div_le_lower_bound; [done|].
    rewrite !length_app. lia.
Qed.

Lemma typed_store_past_end size index bits buf :
  size ≠ 0 → length buf ≤ index * size →
  typed_store size index bits buf = buf.
Proof.
  intros Hs H. apply typed_store_out_of_range.
  apply Nat.Div0.div_le_upper_bound; lia.
Qed.

(** Little-endian bytes read back. *)
Lemma le_value_le_bytes size bits :
  le_value (le_bytes size bits) = (bits mod 256 ^ Z.of_nat size)%Z.
Proof.
  revert bits; induction size as [|n IH]; intros bits.
  - simpl. by rewrite Z.mod_1_r.
  - cbn [le_bytes le_value]. rewrite IH.
    rewrite Nat2Z.inj_succ, Z.pow_succ_r by lia.
    rewrite Z.rem_mul_r by lia. lia.
Qed.

Lemma ToInt16_range x : (- 2 ^ 15 ≤ ToInt16 x < 2 ^ 15)%Z.
Proof.
  unfold ToInt16.
  pose proof (Z.mod_pos_bound (truncate x) (2 ^ 16) eq_refl).
  destruct (Z.leb_spec (2 ^ 15) (truncate x mod 2 ^ 16)); lia.
Qed.

Lemma ToUint32_range x : (0 ≤ ToUint32 x < 2 ^ 32)%Z.
Proof. apply Z.mod_pos_bound. reflexivity. Qed.

(** A signed 16-bit value stored by the narrow view is the SHORT the GPU
    reads. *)
Lemma short_roundtrip v :
  (- 2 ^ 15 ≤ v < 2 ^ 15)%Z →
  component_value GL.SHORT (le_bytes 2 v) = v.
Proof.
  intros Hv. unfold component_value. rewrite le_value_le_bytes.
  cbn [GL.enum_eqb]. change (256 ^ Z.of_nat 2)%Z with (2 ^ 16)%Z.
  destruct (Z.leb_spec (2 ^ 15) (v mod 2 ^ 16)) as [H|H].
  - destruct (Z.lt_ge_cases v 0).
    + rewrite <- (Z.mod_unique v (2 ^ 16) (-1) (v + 2 ^ 16)); lia.
    + rewrite Z.mod_small in H; lia.
  - destruct (Z.lt_ge_cases v 0).
    + rewrite <- (Z.mod_unique v (2 ^ 16) (-1) (v + 2 ^ 16)) in H; lia.
    + rewrite Z.mod_small; lia.
Qed.

Lemma short_pair v :
  (- 2 ^ 15 ≤ v < 2 ^ 15)%Z →
  component_value GL.SHORT [v mod 256; (v / 256) mod 256]%Z = v.
Proof. apply short_roundtrip. Qed.

Lemma byte_single b : component_value GL.UNSIGNED_BYTE [b] = b.
Proof. unfold component_value. cbn. lia. Qed.

Lemma float_quad bits :
  component_value GL.FLOAT
    [bits mod 256; (bits / 256) mod 256; (bits / 256 / 256) mod 256;
     (bits / 256 / 256 / 256) mod 256]%Z
  = (bits mod 2 ^ 32)%Z.
Proof. apply (le_value_le_bytes 4). Qed.

(** The four bytes of a packed tint 0xRRGGBBAA, in the order of the
    memory. *)
Lemma le_bytes_rgba_of r g b a :
  (0 ≤ r < 256 ∧ 0 ≤ g < 256 ∧ 0 ≤ b < 256 ∧ 0 ≤ a < 256)%Z →
  le_bytes 4 (rgba_of r g b a) = [a; b; g; r].
Proof.
  intros H. unfold rgba_of. cbn [le_bytes].
  repeat f_equal; Z.div_mod_to_equations; lia.
Qed.

(** [truncate] sees the value, not the representation: doubling the
    mantissa and lowering the exponent by one changes nothing. *)
Lemma truncate_same_value s m e :
  truncate (S754_finite s (m~0) (e - 1)) = truncate (S754_finite s m e).
Proof.
  unfold truncate.
  assert (Hm : Z.pos m~0 = (2 * Z.pos m)%Z) by lia.
  destruct (Z.leb_spec 0 (e - 1)), (Z.leb_spec 0 e); try lia.
  - assert (H2 : (2 ^ e = 2 * 2 ^ (e - 1))%Z)
      by (rewrite <- Z.pow_succ_r by lia; f_equal; lia).
    rewrite H2, Hm. destruct s; lia.
  - assert (e = 0%Z) as -> by lia.
    change (2 ^ (- (0 - 1)))%Z with 2%Z. change (2 ^ 0)%Z with 1%Z.
    rewrite Hm, Z.mul_comm, Z.div_mul by lia. destruct s; lia.
  - assert (H2 : (2 ^ (- (e - 1)) = 2 * 2 ^ (- e))%Z)
      by (rewrite <- Z.pow_succ_r by lia; f_equal; lia).
    rewrite H2, Hm, Z.div_mul_cancel_l by lia. done.
Qed.

Lemma ToInt16_wrap16 x : ToInt16 x = wrap16 (truncate x).
Proof.
  unfold ToInt16, wrap16.
  destruct (Z.leb_spec (2 ^ 15) (truncate x mod 2 ^ 16));
    Z.div_mod_to_equations; lia.
Qed.

Lemma truncate_int n : truncate (int n) = n.
Proof. destruct n; cbn; lia. Qed.

Lemma ToInt16_int n : ToInt16 (int n) = wrap16 n.
Proof. by rewrite ToInt16_wrap16, truncate_int. Qed.

Lemma ToUint32_int n : ToUint32 (int n) = (n mod 2 ^ 32)%Z.
Proof. unfold ToUint32. by rewrite truncate_int. Qed.

Lemma or_int_nonzero n d : n ≠ 0%Z → or (Number (int n)) d = Number (int n).
Proof. by destruct n. Qed.

End Stores.

(** ** [drawImage] and the buffer *)

Section DrawImage.

Import JS.

Local Open Scope nat_scope.

Variable this : gl1.
Variables texPartX texPartY texPartSizeX texPartSizeY : value.
Variables drawX drawY sizeX sizeY rgba rotation : value.

Let this' := drawImage this texPartX texPartY texPartSizeX texPartSizeY
               drawX drawY sizeX sizeY rgba rotation.

Lemma drawImage_draws : draws this' = draws this + 1.
Proof. reflexivity. Qed.

Lemma drawImage_rest : rest this' = rest this.
Proof. reflexivity. Qed.

Lemma drawImage_length :
  length (arrayBuffer this') = length (arrayBuffer this).
Proof.
  unfold this', drawImage, Int16Array_set, Uint32Array_set, Float32Array_set.
  cbn [arrayBuffer set_draws set_arrayBuffer].
  by rewrite !length_typed_store.
Qed.

(** Outside the slot of index [draws] no byte changes. *)
Lemma drawImage_lookup_outside j :
  j < draws this * 24 ∨ draws this * 24 + 24 ≤ j →
  arrayBuffer this' !! j = arrayBuffer this !! j.
Proof.
  intros Hj.
  unfold this', drawImage, Int16Array_set, Uint32Array_set, Float32Array_set.
  cbn [arrayBuffer set_draws set_arrayBuffer].
  rewrite !typed_store_lookup_outside by lia. done.
Qed.

(** The slot of index [draws], when the buffer has it, receives the
    record. *)
Lemma drawImage_slot (pre slot suf : list Z) :
  arrayBuffer this = pre ++ slot ++ suf →
  length pre = draws this * 24 →
  length slot = 24 →
  arrayBuffer this'
  = pre ++ SpriteRecord_bytes texPartX texPartY texPartSizeX texPartSizeY
             drawX drawY sizeX sizeY rgba rotation ++ suf.
Proof.
  intros Hbuf Hpre Hslot.
  do 24 (destruct slot as [|? slot]; [simpl in Hslot; lia|]).
  destruct slot; [|simpl in Hslot; lia]. clear Hslot.
  unfold this', drawImage, Int16Array_set, Uint32Array_set, Float32Array_set.
  cbn [arrayBuffer set_draws set_arrayBuffer]. rewrite Hbuf.
  rewrite (typed_store_middle 4 _ _ pre _ suf 16); [|lia|lia|simpl; lia].
  rewrite (typed_store_middle 4 _ _ pre _ suf 20); [|lia|lia|simpl; lia].
  rewrite (typed_store_middle 2 _ _ pre _ suf 0); [|lia|lia|simpl; lia].
  rewrite (typed_store_middle 2 _ _ pre _ suf 2); [|lia|lia|simpl; lia].
  rewrite (typed_store_middle 2 _ _ pre _ suf 4); [|lia|lia|simpl; lia].
  rewrite (typed_store_middle 2 _ _ pre _ suf 6); [|lia|lia|simpl; lia].
  rewrite (typed_store_middle 2 _ _ pre _ suf 8); [|lia|lia|simpl; lia].
  rewrite (typed_store_middle 2 _ _ pre _ suf 10); [|lia|lia|simpl; lia].
  rewrite (typed_store_middle 2 _ _ pre _ suf 12); [|lia|lia|simpl; lia].
  rewrite (typed_store_middle 2 _ _ pre _ suf 14); [|lia|lia|simpl; lia].
  reflexivity.
Qed.

Lemma drawImage_record :
  draws this * 24 + 24 ≤ length (arrayBuffer this) →
  arrayBuffer this'
  = take (draws this * 24) (arrayBuffer this)
    ++ SpriteRecord_bytes texPartX texPartY texPartSizeX texPartSizeY
         drawX drawY sizeX sizeY rgba rotation
    ++ drop (draws this * 24 + 24) (arrayBuffer this).
Proof.
  intros H.
  apply (drawImage_slot _ (take 24 (drop (draws this * 24) (arrayBuffer this)))).
  - by rewrite <- drop_drop, !take_drop.
  - rewrite length_take. lia.
  - rewrite length_take, length_drop. lia.
Qed.

(** With no room left for a record, no store lands in the buffer. *)
Lemma drawImage_past_end :
  length (arrayBuffer this) ≤ draws this * 24 →
  arrayBuffer this' = arrayBuffer this.
Proof.
  intros H.
  unfold this', drawImage, Int16Array_set, Uint32Array_set, Float32Array_set.
  cbn [arrayBuffer set_draws set_arrayBuffer].
  rewrite (typed_store_past_end 4 (draws this * 6 + 4)) by lia.
  rewrite (typed_store_past_end 4 (draws this * 6 + 5)) by lia.
  rewrite !(typed_store_past_end 2) by (rewrite ?length_typed_store; lia).
  done.
Qed.

End DrawImage.

(** ** Invariants of the reachable states *)

Section Invariants.

Import JS.

Local Open Scope nat_scope.

Lemma attribute_app name ctx cs :
  GL.attribute name (ctx ++ cs)
  = fold_left (λ acc c,
      match c with
      | GL.vertexAttribPointer n size type _ stride offset =>
          if String.eqb n name then Some (size, type, stride, offset) else acc
      | _ => acc
      end) cs (GL.attribute name ctx).
Proof. apply fold_left_app. Qed.

Lemma divisor_app name ctx cs :
  GL.divisor name (ctx ++ cs)
  = fold_left (λ acc c,
      match c with
      | GL.vertexAttribDivisorANGLE n d =>
          if String.eqb n name then Some d else acc
      | _ => acc
      end) cs (GL.divisor name ctx).
Proof. apply fold_left_app. Qed.

Lemma declared_layout_app ctx cs :
  forallb (λ c, match c with
                | GL.vertexAttribPointer _ _ _ _ _ _
                | GL.vertexAttribDivisorANGLE _ _ => false
                | _ => true
                end) cs = true →
  declared_layout (ctx ++ cs) = declared_layout ctx.
Proof.
  revert ctx. induction cs as [|c cs IH]; intros ctx H.
  - by rewrite app_nil_r.
  - simpl in H. apply andb_prop in H as [Hc Hcs].
    change (c :: cs) with ([c] ++ cs). rewrite app_assoc, IH by done.
    unfold declared_layout. cbn [map].
    rewrite !attribute_app, !divisor_app.
    destruct c; try discriminate Hc; reflexivity.
Qed.

(** [setup] declares stride 24 and the offsets 0, 4, 8, 16, 20, one record
    per instance. *)
Lemma setup_layout o c :
  declared_layout (gl (setup o c))
  = [ (Some (2, GL.SHORT, 24, 0), Some 1);
      (Some (2, GL.SHORT, 24, 4), Some 1);
      (Some (4, GL.SHORT, 24, 8), Some 1);
      (Some (4, GL.UNSIGNED_BYTE, 24, 16), Some 1);
      (Some (1, GL.FLOAT, 24, 20), Some 1) ].
Proof. reflexivity. Qed.

Lemma reachable_layout this :
  reachable this →
  declared_layout (gl this)
  = [ (Some (2, GL.SHORT, 24, 0), Some 1);
      (Some (2, GL.SHORT, 24, 4), Some 1);
      (Some (4, GL.SHORT, 24, 8), Some 1);
      (Some (4, GL.UNSIGNED_BYTE, 24, 16), Some 1);
      (Some (1, GL.FLOAT, 24, 20), Some 1) ].
Proof.
  induction 1 as [n c| | this _ IH | this _ IH | this image _ IH
                 | this image _ IH | ]; try assumption.
  - apply setup_layout.
  - unfold drawEverything, gl_calls. cbn [gl set_draws set_gl].
    by rewrite declared_layout_app.
  - unfold resize, gl_calls. cbn [gl set_gl].
    by rewrite declared_layout_app.
  - unfold loadTexFromJsImage, resize, gl_calls.
    cbn [gl set_gl set_texSize set_jsImage canvas texSizeX texSizeY].
    by rewrite !declared_layout_app.
  - unfold image_onload, loadTexFromJsImage, resize, gl_calls.
    cbn [gl set_gl set_texSize set_jsImage set_ready canvas texSizeX texSizeY].
    by rewrite !declared_layout_app.
Qed.

(** The buffer keeps the size [setup] gave it: [maxDraws] records. *)
Lemma reachable_buffer_length this :
  reachable this → length (arrayBuffer this) = maxDraws this * 24.
Proof.
  induction 1 as [n c| this tx ty tw th dx dy sx sy rgba rotation _ IH
                 | | | | | ]; try assumption.
  - apply length_replicate.
  - by rewrite drawImage_length.
Qed.

End Invariants.

(** ** The record as the GPU fetches it *)

Section Fetch.

Import JS.

Local Open Scope nat_scope.

Variables texPartX texPartY texPartSizeX texPartSizeY : value.
Variables drawX drawY sizeX sizeY rgba rotation : value.

Let record := SpriteRecord_bytes texPartX texPartY texPartSizeX texPartSizeY
                drawX drawY sizeX sizeY rgba rotation.

Lemma length_SpriteRecord_bytes : length record = 24.
Proof. reflexivity. Qed.

Variables (pre suf : list Z) (k : nat).
Hypothesis Hpre : length pre = k * 24.

Let buf := pre ++ record ++ suf.

Lemma fetch_aPos :
  fetch_attribute (2, GL.SHORT, 24, 0) k buf
  = [ToInt16 (ToNumber drawX); ToInt16 (ToNumber drawY)].
Proof.
  unfold fetch_attribute, buf. rewrite drop_app_add' by lia.
  cbn [fetch_components component_size GL.enum_eqb take drop record
       SpriteRecord_bytes le_bytes app].
  by rewrite !(short_pair _ (ToInt16_range _)).
Qed.

Lemma fetch_aSize :
  fetch_attribute (2, GL.SHORT, 24, 4) k buf
  = [ToInt16 (ToNumber sizeX); ToInt16 (ToNumber sizeY)].
Proof.
  unfold fetch_attribute, buf. rewrite drop_app_add' by lia.
  cbn [fetch_components component_size GL.enum_eqb take drop record
       SpriteRecord_bytes le_bytes app].
  by rewrite !(short_pair _ (ToInt16_range _)).
Qed.

Lemma fetch_aTexPos :
  fetch_attribute (4, GL.SHORT, 24, 8) k buf
  = [ToInt16 (ToNumber texPartX); ToInt16 (ToNumber texPartY);
     ToInt16 (ToNumber texPartSizeX); ToInt16 (ToNumber texPartSizeY)].
Proof.
  unfold fetch_attribute, buf. rewrite drop_app_add' by lia.
  cbn [fetch_components component_size GL.enum_eqb take drop record
       SpriteRecord_bytes le_bytes app].
  by rewrite !(short_pair _ (ToInt16_range _)).
Qed.

Lemma fetch_aRgba :
  fetch_attribute (4, GL.UNSIGNED_BYTE, 24, 16) k buf
  = le_bytes 4 (ToUint32 (ToNumber (or rgba (Number (int 0xFFFFFF7F))))).
Proof.
  unfold fetch_attribute, buf. rewrite drop_app_add' by lia.
  cbn [fetch_components component_size GL.enum_eqb take drop record
       SpriteRecord_bytes le_bytes app].
  by rewrite !byte_single.
Qed.

Lemma fetch_aRotation :
  fetch_attribute (1, GL.FLOAT, 24, 20) k buf
  = [(float32_bits (ToFloat32 (ToNumber (or rotation (Number (int 0)))))
      mod 2 ^ 32)%Z].
Proof.
  unfold fetch_attribute, buf. rewrite drop_app_add' by lia.
  cbn [fetch_components component_size GL.enum_eqb take drop record
       SpriteRecord_bytes le_bytes app].
  by rewrite float_quad.
Qed.

End Fetch.

Section FetchDrawn.

Import JS.

Local Open Scope nat_scope.

Lemma reachable_attributes this :
  reachable this →
  GL.attribute "aPos" (gl this) = Some (2, GL.SHORT, 24, 0)
  ∧ GL.attribute "aSize" (gl this) = Some (2, GL.SHORT, 24, 4)
  ∧ GL.attribute "aTexPos" (gl this) = Some (4, GL.SHORT, 24, 8)
  ∧ GL.attribute "aRgba" (gl this) = Some (4, GL.UNSIGNED_BYTE, 24, 16)
  ∧ GL.attribute "aRotation" (gl this) = Some (1, GL.FLOAT, 24, 20).
Proof.
  intros H. pose proof (reachable_layout _ H) as L.
  unfold declared_layout in L. cbn [map] in L.
  by simplify_eq.
Qed.

(** What the GPU reads for the instance a call of [drawImage] wrote. *)
Lemma drawImage_fetch this tx ty tw th dx dy sx sy rgba rotation :
  reachable this →
  draws this < maxDraws this →
  let this' := drawImage this tx ty tw th dx dy sx sy rgba rotation in
  let k := draws this in
  instance_attribute this' "aPos" k
  = Some [ToInt16 (ToNumber dx); ToInt16 (ToNumber dy)]
  ∧ instance_attribute this' "aSize" k
    = Some [ToInt16 (ToNumber sx); ToInt16 (ToNumber sy)]
  ∧ instance_attribute this' "aTexPos" k
    = Some [ToInt16 (ToNumber tx); ToInt16 (ToNumber ty);
            ToInt16 (ToNumber tw); ToInt16 (ToNumber th)]
  ∧ instance_attribute this' "aRgba" k
    = Some (le_bytes 4
              (ToUint32 (ToNumber (or rgba (Number (int 0xFFFFFF7F))))))
  ∧ instance_attribute this' "aRotation" k
    = Some [(float32_bits
               (ToFloat32 (ToNumber (or rotation (Number (int 0)))))
             mod 2 ^ 32)%Z].
Proof.
  intros Hr Hk this' k.
  pose proof (reachable_buffer_length _ Hr) as Hlen.
  destruct (reachable_attributes _ Hr) as (A1 & A2 & A3 & A4 & A5).
  assert (Hpre : length (take (k * 24) (arrayBuffer this)) = k * 24)
    by (rewrite length_take; unfold k; lia).
  unfold instance_attribute.
  change (gl this') with (gl this). rewrite A1, A2, A3, A4, A5.
  unfold this'. rewrite drawImage_record by lia. fold k.
  rewrite fetch_aPos, fetch_aSize, fetch_aTexPos, fetch_aRgba,
    fetch_aRotation by done.
  done.
Qed.

End FetchDrawn.

(** ** The claims on [drawImage] *)

Section DrawImageClaims.

Import JS.

Local Open Scope nat_scope.

(** C10. A call of [drawImage] changes only the 24 bytes of the slot of
    index [draws] and adds 1 to [draws]: the buffer keeps its length, the
    records before the slot and the bytes after it are the same, and so is
    every other field of the object. *)
Theorem drawImage_frame this tx ty tw th dx dy sx sy rgba rotation :
  let this' := drawImage this tx ty tw th dx dy sx sy rgba rotation in
  let k := draws this in
  draws this' = k + 1
  ∧ length (arrayBuffer this') = length (arrayBuffer this)
  ∧ take (k * 24) (arrayBuffer this') = take (k * 24) (arrayBuffer this)
  ∧ drop (k * 24 + 24) (arrayBuffer this')
    = drop (k * 24 + 24) (arrayBuffer this)
  ∧ rest this' = rest this.
Proof.
  intros this' k. split; [reflexivity|].
  split; [apply drawImage_length|].
  split; [|split; [|reflexivity]].
  - apply list_eq. intros j.
    destruct (Nat.lt_ge_cases j (k * 24)) as [Hj|Hj].
    + rewrite !lookup_take_lt by done.
      apply drawImage_lookup_outside. by left.
    + by rewrite !lookup_take_ge.
  - apply list_eq. intros j. rewrite !lookup_drop.
    apply drawImage_lookup_outside. right. unfold k. lia.
Qed.

(** C1, as the code has it. [drawImage] has no capacity check: from every
    reachable state the call completes normally and adds 1 to [draws]; with
    [draws] at or above [maxDraws] it writes nothing to the buffer, and it
    leaves [draws <= maxDraws] true exactly when [draws < maxDraws] held
    before. *)
Theorem drawImage_capacity this tx ty tw th dx dy sx sy rgba rotation :
  reachable this →
  ∃ this',
    call_drawImage this tx ty tw th dx dy sx sy rgba rotation = normal this'
    ∧ draws this' = draws this + 1
    ∧ maxDraws this' = maxDraws this
    ∧ (maxDraws this ≤ draws this → arrayBuffer this' = arrayBuffer this)
    ∧ (draws this' ≤ maxDraws this' ↔ draws this < maxDraws this).
Proof.
  intros Hr. eexists. split; [reflexivity|].
  split; [reflexivity|]. split; [reflexivity|]. split.
  - intros Hfull. apply drawImage_past_end.
    rewrite (reachable_buffer_length _ Hr). lia.
  - rewrite drawImage_draws. cbn [maxDraws drawImage set_draws set_arrayBuffer].
    lia.
Qed.

(** C2, as the code has it. From a reachable state with room for a record,
    [draws < maxDraws], a call of
    [drawImage] with [draws = k] fills the 24 bytes from byte [k * 24] with
    the record of the wire layout: at 0-15 the eight signed 16-bit integers
    drawX, drawY, sizeX, sizeY, texPartX, texPartY, texPartSizeX,
    texPartSizeY, at 16-19 the tint bytes a, b, g, r, at 20-23 the rotation
    as a binary32; and the attributes [setup] declared, with stride 24 and
    offsets 0, 4, 8, 16, 20, read these values back for instance [k]. *)
Theorem drawImage_writes_record this tx ty tw th dx dy sx sy rgba rotation :
  reachable this →
  draws this < maxDraws this →
  let this' := drawImage this tx ty tw th dx dy sx sy rgba rotation in
  let k := draws this in
  take 24 (drop (k * 24) (arrayBuffer this'))
  = SpriteRecord_bytes tx ty tw th dx dy sx sy rgba rotation
  ∧ declared_layout (gl this')
    = [ (Some (2, GL.SHORT, 24, 0), Some 1);
        (Some (2, GL.SHORT, 24, 4), Some 1);
        (Some (4, GL.SHORT, 24, 8), Some 1);
        (Some (4, GL.UNSIGNED_BYTE, 24, 16), Some 1);
        (Some (1, GL.FLOAT, 24, 20), Some 1) ]
  ∧ instance_attribute this' "aPos" k
    = Some [ToInt16 (ToNumber dx); ToInt16 (ToNumber dy)]
  ∧ instance_attribute this' "aSize" k
    = Some [ToInt16 (ToNumber sx); ToInt16 (ToNumber sy)]
  ∧ instance_attribute this' "aTexPos" k
    = Some [ToInt16 (ToNumber tx); ToInt16 (ToNumber ty);
            ToInt16 (ToNumber tw); ToInt16 (ToNumber th)]
  ∧ instance_attribute this' "aRotation" k
    = Some [(float32_bits
               (ToFloat32 (ToNumber (or rotation (Number (int 0)))))
             mod 2 ^ 32)%Z]
  ∧ ∀ r g b a,
      (0 ≤ r < 256 ∧ 0 ≤ g < 256 ∧ 0 ≤ b < 256 ∧ 0 ≤ a < 256)%Z →
      rgba_of r g b a ≠ 0%Z →
      rgba = Number (int (rgba_of r g b a)) →
      instance_attribute this' "aRgba" k = Some [a; b; g; r].
Proof.
  intros Hr Hk this' k.
  pose proof (reachable_buffer_length _ Hr) as Hlen.
  destruct (drawImage_fetch this tx ty tw th dx dy sx sy rgba rotation Hr Hk)
    as (F1 & F2 & F3 & F4 & F5).
  split; [|split; [|repeat split; try assumption]].
  - unfold this'. rewrite drawImage_record by lia. fold k.
    rewrite drop_app_length' by (rewrite length_take; unfold k; lia).
    by rewrite take_app_length'.
  - apply (reachable_layout this'). by constructor.
  - intros r g b a Hb Hnz ->. unfold this', k. rewrite F4.
    rewrite or_int_nonzero by done. cbn [ToNumber].
    rewrite ToUint32_int, Z.mod_small by (unfold rgba_of; lia).
    by rewrite le_bytes_rgba_of.
Qed.

Lemma drawImage_writes_record_witness :
  let this := setup (set_maxDraws 2 gl1_literal) (Build_Canvas 640 480) in
  let this' := drawImage this (num 1) (num 2) (num 3) (num 4) (num 5) (num (-6)) (num 7)
                 (num 8) (num 0x00FF007F) (Number (S754_finite false 3 (-1))) in
  reachable this ∧ draws this < maxDraws this
  ∧ take 24 (drop 0 (arrayBuffer this'))
    = [5; 0; 250; 255; 7; 0; 8; 0; 1; 0; 2; 0; 3; 0; 4; 0;
       127; 0; 255; 0; 0; 0; 192; 63]%Z
  ∧ instance_attribute this' "aRgba" 0 = Some [127; 0; 255; 0]%Z.
Proof.
  intros this this'.
  assert (Hr : reachable this) by constructor.
  assert (Hk : draws this < maxDraws this) by (cbn; lia).
  destruct (drawImage_writes_record this (num 1) (num 2) (num 3) (num 4) (num 5)
              (num (-6)) (num 7) (num 8) (num 0x00FF007F)
              (Number (S754_finite false 3 (-1))) Hr Hk)
    as (B & _ & _ & _ & _ & _ & T).
  split; [exact Hr|]. split; [exact Hk|]. split.
  - exact B.
  - apply (T 0 255 0 127)%Z; [lia | discriminate | reflexivity].
Defined.

(** C2 as stated fails when [draws] has reached [maxDraws]: with
    [maxDraws = 1] and one image drawn, the next [drawImage], called with
    [draws = 1], leaves the buffer as it was; the buffer has no byte from
    byte 1 * 24 on, so no record is written there. *)
Lemma drawImage_at_capacity_writes_no_record :
  let full := drawImage (setup (set_maxDraws 1 gl1_literal) (Build_Canvas 640 480))
                (num 0) (num 0) (num 1) (num 1) (num 5) (num 6) (num 7)
                (num 8) Undefined Undefined in
  let this' := drawImage full (num 0) (num 0) (num 1) (num 1) (num 9) (num 9)
                 (num 9) (num 9) (num 0x00FF007F) Undefined in
  let k := draws full in
  reachable full
  ∧ k = 1
  ∧ arrayBuffer this' = arrayBuffer full
  ∧ take 24 (drop (k * 24) (arrayBuffer this')) = []
  ∧ take 24 (drop (k * 24) (arrayBuffer this'))
    ≠ SpriteRecord_bytes (num 0) (num 0) (num 1) (num 1) (num 9) (num 9)
        (num 9) (num 9) (num 0x00FF007F) Undefined.
Proof.
  intros full this' k.
  assert (Hr : reachable full) by (apply reach_drawImage, reach_setup).
  assert (Hlen : length (arrayBuffer full) = 24)
    by (rewrite (reachable_buffer_length _ Hr); reflexivity).
  assert (Hb : arrayBuffer this' = arrayBuffer full).
  { apply drawImage_past_end. rewrite Hlen. cbn. lia. }
  assert (Ht : take 24 (drop (k * 24) (arrayBuffer this')) = []).
  { rewrite Hb, drop_ge; [reflexivity|]. rewrite Hlen. cbn. lia. }
  split; [exact Hr|]. split; [reflexivity|]. split; [exact Hb|].
  split; [exact Ht|]. rewrite Ht. discriminate.
Qed.



Lemma drawImage_capacity_witness :
  let full := drawImage (setup (set_maxDraws 1 gl1_literal) (Build_Canvas 640 480))
                (num 0) (num 0) (num 1) (num 1) (num 5) (num 6) (num 7)
                (num 8) Undefined Undefined in
  reachable full ∧ maxDraws full ≤ draws full
  ∧ ∃ this',
      call_drawImage full (num 0) (num 0) (num 1) (num 1) (num 9) (num 9)
        (num 9) (num 9) Undefined Undefined = normal this'
      ∧ draws this' = 2 ∧ arrayBuffer this' = arrayBuffer full.
Proof.
  intros full.
  assert (Hr : reachable full) by (apply reach_drawImage, reach_setup).
  assert (Hk : maxDraws full ≤ draws full) by (cbn; lia).
  split; [exact Hr|]. split; [exact Hk|].
  destruct (drawImage_capacity full (num 0) (num 0) (num 1) (num 1) (num 9)
              (num 9) (num 9) (num 9) Undefined Undefined Hr)
    as (this' & Hc & Hd & _ & Hb & _).
  exists this'. split; [exact Hc|]. split; [exact Hd | exact (Hb Hk)].
Defined.

(** C1 as stated fails: with [maxDraws = 1] and one image drawn, [draws]
    equals [maxDraws]; the next [drawImage] does not throw, and it leaves
    [draws = 2], above [maxDraws]. *)
Lemma drawImage_at_capacity_does_not_throw :
  let full := drawImage (setup (set_maxDraws 1 gl1_literal) (Build_Canvas 640 480))
                (num 0) (num 0) (num 1) (num 1) (num 5) (num 6) (num 7)
                (num 8) Undefined Undefined in
  let call := call_drawImage full (num 0) (num 0) (num 1) (num 1) (num 9)
                (num 9) (num 9) (num 9) Undefined Undefined in
  reachable full
  ∧ draws full = maxDraws full
  ∧ (∀ error, call ≠ throw error)
  ∧ ∃ this', call = normal this' ∧ ¬ draws this' ≤ maxDraws this'.
Proof.
  intros full call.
  split; [apply reach_drawImage, reach_setup|].
  split; [reflexivity|]. split; [discriminate|].
  eexists. split; [reflexivity|]. cbn. lia.
Qed.

(** C9, as the code has it. An omitted tint, or the tint 0, is stored as
    the default a=127, b=g=r=255; no tint given as a packed 32-bit value,
    an integer from 0 to 2^32-1, is stored as the all-zero tint; an omitted
    rotation is stored as the float 0. *)
Theorem drawImage_defaults this tx ty tw th dx dy sx sy rgba rotation :
  reachable this →
  draws this < maxDraws this →
  let this' := drawImage this tx ty tw th dx dy sx sy rgba rotation in
  let k := draws this in
  (rgba = Undefined ∨ rgba = num 0 →
   instance_attribute this' "aRgba" k = Some [127; 255; 255; 255]%Z)
  ∧ (∀ n, (0 ≤ n < 2 ^ 32)%Z → rgba = num n →
     instance_attribute this' "aRgba" k ≠ Some [0; 0; 0; 0]%Z)
  ∧ (rotation = Undefined →
     instance_attribute this' "aRotation" k = Some [0%Z]).
Proof.
  intros Hr Hk this' k.
  destruct (drawImage_fetch this tx ty tw th dx dy sx sy rgba rotation Hr Hk)
    as (_ & _ & _ & F4 & F5).
  fold this' k in F4, F5. split; [|split].
  - intros [-> | ->]; rewrite F4; reflexivity.
  - intros n Hn ->. rewrite F4. destruct (decide (n = 0%Z)) as [->|Hnz].
    + discriminate.
    + unfold num. rewrite or_int_nonzero by done. cbn [ToNumber].
      rewrite ToUint32_int, Z.mod_small by done.
      intros H.
      assert (H0 : le_bytes 4 n = [0; 0; 0; 0]%Z) by congruence.
      apply (f_equal le_value) in H0.
      rewrite le_value_le_bytes in H0.
      change (256 ^ Z.of_nat 4)%Z with (2 ^ 32)%Z in H0.
      rewrite Z.mod_small in H0 by done. cbn in H0. done.
  - intros ->. rewrite F5. reflexivity.
Qed.

Lemma drawImage_defaults_witness :
  let this := setup (set_maxDraws 2 gl1_literal) (Build_Canvas 640 480) in
  let this' := drawImage this (num 0) (num 0) (num 1) (num 1) (num 5) (num 6)
                 (num 7) (num 8) Undefined Undefined in
  instance_attribute this' "aRgba" 0 = Some [127; 255; 255; 255]%Z
  ∧ instance_attribute this' "aRotation" 0 = Some [0%Z].
Proof.
  intros this this'.
  assert (Hr : reachable this) by constructor.
  assert (Hk : draws this < maxDraws this) by (cbn; lia).
  destruct (drawImage_defaults this (num 0) (num 0) (num 1) (num 1) (num 5)
              (num 6) (num 7) (num 8) Undefined Undefined Hr Hk)
    as (T & _ & R).
  split; [apply T; left; reflexivity | apply R; reflexivity].
Defined.

(** C9 as stated fails: the tint 4294967296 = 2^32 is not falsy, so the
    default does not replace it, and the packed view stores it modulo 2^32:
    the all-zero tint. *)
Lemma drawImage_stores_zero_tint :
  let this := setup (set_maxDraws 2 gl1_literal) (Build_Canvas 640 480) in
  let this' := drawImage this (num 0) (num 0) (num 1) (num 1) (num 5) (num 6)
                 (num 7) (num 8) (num 4294967296) Undefined in
  reachable this'
  ∧ instance_attribute this' "aRgba" 0 = Some [0; 0; 0; 0]%Z
  ∧ take 4 (drop 16 (arrayBuffer this')) = [0; 0; 0; 0]%Z.
Proof.
  intros this this'.
  split; [apply reach_drawImage, reach_setup|].
  split; vm_compute; reflexivity.
Qed.

End DrawImageClaims.

(** ** [drawEverything] and [resize] *)

Section Frame.

Import JS.

Local Open Scope nat_scope.

Lemma new_calls_gl_calls cs this : new_calls this (gl_calls cs this) = cs.
Proof. unfold new_calls, gl_calls. cbn [gl set_gl]. apply drop_app_length. Qed.

Lemma drawEverything_new_calls this :
  reachable this →
  new_calls this (drawEverything this)
  = [ GL.clear GL.COLOR_BUFFER_BIT;
      GL.bufferSubData GL.ARRAY_BUFFER 0
        (take (Nat.min (draws this) (maxDraws this) * 24) (arrayBuffer this));
      GL.drawElementsInstancedANGLE GL.TRIANGLES 6 GL.UNSIGNED_BYTE 0
        (draws this) ].
Proof.
  intros Hr.
  pose proof (reachable_buffer_length _ Hr) as Hlen.
  unfold drawEverything, new_calls, gl_calls. cbn [gl set_gl set_draws].
  rewrite drop_app_length. do 3 f_equal.
  unfold subarray_bytes. rewrite Hlen.
  replace (maxDraws this * 24) with (maxDraws this * 6 * 4) by lia.
  rewrite Nat.div_mul by done. cbn [Nat.min Nat.mul drop].
  f_equal. lia.
Qed.

(** C3, as the code has it. From every reachable state with [draws = n],
    [drawEverything] adds to the context one clear, one upload at offset 0
    of the first [min n maxDraws * 24] bytes of the buffer (the [n * 24]
    bytes of the [n] records when [n <= maxDraws], never more than
    [n * 24]) and one instanced draw of 6 indices as triangles with [n]
    instances; it sets [draws] to 0 and keeps the buffer. *)
Theorem drawEverything_spec this :
  reachable this →
  let n := draws this in
  let data := take (Nat.min n (maxDraws this) * 24) (arrayBuffer this) in
  new_calls this (drawEverything this)
  = [ GL.clear GL.COLOR_BUFFER_BIT;
      GL.bufferSubData GL.ARRAY_BUFFER 0 data;
      GL.drawElementsInstancedANGLE GL.TRIANGLES 6 GL.UNSIGNED_BYTE 0 n ]
  ∧ uploads (new_calls this (drawEverything this)) = [(0, data)]
  ∧ submissions (new_calls this (drawEverything this))
    = [(GL.TRIANGLES, 6, n)]
  ∧ length data = Nat.min n (maxDraws this) * 24
  ∧ length data ≤ n * 24
  ∧ (n ≤ maxDraws this → data = take (n * 24) (arrayBuffer this))
  ∧ draws (drawEverything this) = 0
  ∧ arrayBuffer (drawEverything this) = arrayBuffer this.
Proof.
  intros Hr n data.
  pose proof (reachable_buffer_length _ Hr) as Hlen.
  rewrite (drawEverything_new_calls _ Hr). fold n data. repeat split.
  - unfold data. rewrite length_take. lia.
  - unfold data. rewrite length_take. lia.
  - intros Hn. unfold data. f_equal. lia.
Qed.

Lemma drawEverything_spec_witness :
  let this0 := setup (set_maxDraws 3 gl1_literal) (Build_Canvas 640 480) in
  let A this := drawImage this (num 0) (num 0) (num 1) (num 1) (num 5)
                  (num 6) (num 7) (num 8) Undefined Undefined in
  let this := A (A (A this0)) in
  let next := A (drawEverything this) in
  reachable this
  ∧ (∃ data, uploads (new_calls this (drawEverything this)) = [(0, data)]
             ∧ length data = 72)
  ∧ submissions (new_calls this (drawEverything this)) = [(GL.TRIANGLES, 6, 3)]
  ∧ draws (drawEverything this) = 0
  ∧ submissions (new_calls next (drawEverything next)) = [(GL.TRIANGLES, 6, 1)].
Proof.
  intros this0 A this next.
  assert (Hr : reachable this)
    by (subst this A; cbv beta; do 3 apply reach_drawImage; apply reach_setup).
  assert (Hn : reachable next)
    by (subst next A; cbv beta;
        apply reach_drawImage, reach_drawEverything, Hr).
  destruct (drawEverything_spec this Hr) as (_ & U & S & L & _ & _ & D & _).
  destruct (drawEverything_spec next Hn) as (_ & _ & S' & _).
  split; [exact Hr|]. split; [|split; [exact S|split; [exact D|exact S']]].
  eexists. split; [exact U | exact L].
Defined.

(** C3 as stated fails when [draws] has passed [maxDraws]: with
    [maxDraws = 1] and two images drawn, [drawEverything] uploads the 24
    bytes of the buffer, not 2 * 24, and submits 2 instances. *)
Lemma drawEverything_uploads_less :
  let this0 := setup (set_maxDraws 1 gl1_literal) (Build_Canvas 640 480) in
  let A this := drawImage this (num 0) (num 0) (num 1) (num 1) (num 5)
                  (num 6) (num 7) (num 8) Undefined Undefined in
  let this := A (A this0) in
  reachable this
  ∧ draws this = 2
  ∧ ∃ data, uploads (new_calls this (drawEverything this)) = [(0, data)]
            ∧ length data = 24
            ∧ length data ≠ draws this * 24
            ∧ submissions (new_calls this (drawEverything this))
              = [(GL.TRIANGLES, 6, 2)].
Proof.
  intros this0 A this.
  assert (Hr : reachable this)
    by (subst this A; cbv beta; do 2 apply reach_drawImage;
        apply reach_setup).
  split; [exact Hr|]. split; [reflexivity|].
  rewrite (drawEverything_new_calls _ Hr).
  eexists. split; [reflexivity|].
  rewrite length_take, (reachable_buffer_length _ Hr).
  split; [reflexivity|]. split; [cbn; lia | reflexivity].
Qed.

(** C7. [resize] sets the viewport to (0, 0, w, h) and the two scale
    uniforms to w/2 and h/2 for the size (w, h) the canvas has at the call;
    it adds no command that creates or fills a buffer or a texture and
    keeps the buffer and the other fields; a later [resize] for another
    size of the canvas gives the same pair of scale uniforms only if the
    size is the same. *)
Theorem resize_spec this (w' h' : Z) :
  let w := width (canvas this) in
  let h := height (canvas this) in
  scale_uniforms (resize this) = (Some (IZR w / 2)%R, Some (IZR h / 2)%R)
  ∧ GL.current_viewport (gl (resize this)) = Some (0, 0, w, h)%Z
  ∧ new_calls this (resize this)
    = [ GL.viewport 0 0 w h;
        GL.uniform1f "uCanvasSizeX"%string (IZR w / 2);
        GL.uniform1f "uCanvasSizeY"%string (IZR h / 2) ]
  ∧ forallb (λ c, negb (GL.is_buffer_upload c || GL.is_texture_upload c))
      (new_calls this (resize this)) = true
  ∧ arrayBuffer (resize this) = arrayBuffer this
  ∧ draws (resize this) = draws this
  ∧ (maxDraws (resize this), canvas (resize this), shaderProgram (resize this),
     jsImage (resize this), texSizeX (resize this), texSizeY (resize this))
    = (maxDraws this, canvas this, shaderProgram this,
       jsImage this, texSizeX this, texSizeY this)
  ∧ (scale_uniforms (resize (canvas_resized w' h' (resize this)))
     = scale_uniforms (resize this)
     ↔ (w', h') = (w, h)).
Proof.
  intros w h.
  assert (Hs : ∀ o, scale_uniforms (resize o)
                    = (Some (IZR (width (canvas o)) / 2)%R,
                       Some (IZR (height (canvas o)) / 2)%R)).
  { intros o. unfold scale_uniforms, GL.uniform_float, resize, gl_calls.
    cbn [gl set_gl]. by rewrite !fold_left_app. }
  split; [apply Hs|]. split.
  { unfold GL.current_viewport, resize, gl_calls. cbn [gl set_gl].
    by rewrite fold_left_app. }
  unfold resize at 1 2. rewrite !new_calls_gl_calls.
  split; [reflexivity|]. split; [reflexivity|].
  do 3 (split; [reflexivity|]).
  rewrite !Hs. cbn [canvas canvas_resized width height resize gl_calls set_gl].
  fold w h. split.
  - intros [= Hw Hh]. f_equal; apply eq_IZR; lra.
  - by intros [= -> ->].
Qed.

Lemma resize_spec_witness :
  let this := setup (set_maxDraws 2 gl1_literal) (Build_Canvas 640 480) in
  scale_uniforms (resize this) = (Some (640 / 2)%R, Some (480 / 2)%R)
  ∧ scale_uniforms (resize (canvas_resized 800 600 (resize this)))
    ≠ scale_uniforms (resize this).
Proof.
  intros this.
  destruct (resize_spec this 800 600) as (U & _ & _ & _ & _ & _ & _ & I).
  split; [exact U|].
  intros E. apply I in E. discriminate E.
Defined.

End Frame.

(** ** The shader *)

Section ShaderClaims.

Import Shader.

Local Open Scope R_scope.

Lemma Rgtb_IZR (a : Z) : Rgtb (IZR a) 127 = negb (a <=? 127)%Z.
Proof.
  unfold Rgtb.
  destruct (Rgt_dec (IZR a) 127) as [H|H], (Z.leb_spec a 127) as [L|L];
    try reflexivity; exfalso.
  - apply IZR_le in L. lra.
  - apply IZR_lt in L. lra.
Qed.

Lemma Rneb_0 : Rneb 0 0 = false.
Proof. unfold Rneb. by destruct (Req_dec_T 0 0). Qed.

Lemma Rneb_nonzero r : r ≠ 0 → Rneb r 0 = true.
Proof. intros H. unfold Rneb. by destruct (Req_dec_T r 0). Qed.

(** C4. The tint the vertex stage hands to every fragment of a sprite,
    for the tint bytes (a, b, g, r): with a <= 127 it is
    (r/255, g/255, b/255) with opacity a/127; with a > 127 it is
    (r, g, b) * colorMult with opacity 1, for
    colorMult = 2^((a-127)/16) / 255.  So (a=127, r=g=b=255) gives
    (1, 1, 1) at opacity 1; (a=0, r=255, g=0, b=0) gives opacity 0 and a
    fragment that leaves the canvas as it was; (a=143, r=g=b=255) has
    colorMult = 2/255 and gives (2, 2, 2) at opacity 1, above the
    (1, 1, 1) of the white tint. *)
Theorem decode_tint_spec cos sin pow u m pos size texPos (a b g r : Z) rot :
  fragAbgr (vert_main cos sin pow u (instance m pos size texPos a b g r rot))
  = (if (a <=? 127)%Z
     then Vec4 (IZR r / 255) (IZR g / 255) (IZR b / 255) (IZR a / 127)
     else let colorMult := pow 2 ((IZR a - 127) / 16) / 255 in
          Vec4 (IZR r * colorMult) (IZR g * colorMult) (IZR b * colorMult) 1)
  ∧ decode_tint pow (Vec4 127 255 255 255) = Vec4 1 1 1 1
  ∧ w (decode_tint pow (Vec4 0 0 0 255)) = 0
  ∧ (∀ uSampler dst,
       blend (frag_main uSampler
                (vert_main cos sin pow u
                   (instance m pos size texPos 0 0 0 255 rot))) dst
       = dst)
  ∧ Rpower 2 ((143 - 127) / 16) / 255 = 2 / 255
  ∧ decode_tint Rpower (Vec4 143 255 255 255) = Vec4 2 2 2 1.
Proof.
  assert (H127 : Rgtb 127 127 = false) by apply (Rgtb_IZR 127).
  assert (H0 : Rgtb 0 127 = false) by apply (Rgtb_IZR 0).
  assert (H143 : Rgtb 143 127 = true) by apply (Rgtb_IZR 143).
  assert (Hpow : Rpower 2 ((143 - 127) / 16) = 2).
  { replace ((143 - 127) / 16) with 1 by lra. apply Rpower_1. lra. }
  split; [|split; [|split; [|split; [|split]]]].
  - cbn [vert_main fragAbgr instance aRgba]. unfold decode_tint.
    cbn [x y z w]. rewrite Rgtb_IZR. by destruct (a <=? 127)%Z.
  - unfold decode_tint. cbn [x y z w]. rewrite H127. f_equal; lra.
  - unfold decode_tint. cbn [x y z w]. rewrite H0. cbn [w]. lra.
  - intros uSampler [dx dy dz dw]. unfold frag_main.
    cbn [vert_main fragAbgr fragTexturePos instance aRgba].
    unfold decode_tint. cbn [x y z w].
    rewrite H0. unfold blend, mul4. cbn [x y z w]. f_equal; lra.
  - rewrite Hpow. reflexivity.
  - unfold decode_tint. cbn [x y z w]. rewrite H143, Hpow. f_equal; lra.
Qed.

(** C5. With rotation 0 the vertex stage takes the branch with no
    trigonometry, whatever [cos] and [sin] are: the screen corner is
    drawPos + drawSize * m for each of the four corner multipliers (0,0),
    (0,1), (1,0), (1,1). *)
Theorem unrotated_corners cos sin pos size texPos rgba :
  let corner m := drawPos cos sin (Build_attributes m pos size texPos rgba 0) in
  (∀ m, corner m = add2 pos (mul2 size m))
  ∧ sizeMults = [Vec2 0 0; Vec2 0 1; Vec2 1 0; Vec2 1 1]
  ∧ map corner sizeMults
    = [ pos;
        Vec2 (x2 pos) (y2 pos + y2 size);
        Vec2 (x2 pos + x2 size) (y2 pos);
        Vec2 (x2 pos + x2 size) (y2 pos + y2 size) ].
Proof.
  intros corner.
  assert (Hc : ∀ m, corner m = add2 pos (mul2 size m)).
  { intros m. unfold corner, drawPos. cbn [aRotation]. by rewrite Rneb_0. }
  split; [exact Hc|]. split; [reflexivity|].
  cbn [map sizeMults pairs]. rewrite !Hc.
  destruct pos as [px py], size as [sx sy]. unfold add2, mul2. cbn [x2 y2].
  repeat f_equal; lra.
Qed.

(** C6. With a rotation other than 0 every corner is the offset
    drawSize * (m - 0.5) rotated, moved by drawPos + drawSize / 2, and the
    mean of the four corners is drawPos + drawSize / 2, whatever values
    [cos] and [sin] give: the sprite turns about its own centre. *)
Theorem rotated_corners_center cos sin pos size texPos rgba rot :
  rot ≠ 0 →
  let corner m :=
    drawPos cos sin (Build_attributes m pos size texPos rgba rot) in
  (∀ m,
     let cornerPos := mul2 size (sub2s m 0.5) in
     corner m
     = add2 (add2 pos
               (Vec2 (cos rot * x2 cornerPos - sin rot * y2 cornerPos)
                     (sin rot * x2 cornerPos + cos rot * y2 cornerPos)))
            (div2s size 2))
  ∧ mean (map corner sizeMults) = add2 pos (div2s size 2).
Proof.
  intros Hrot corner.
  assert (Hc : ∀ m,
     corner m
     = add2 (add2 pos
               (Vec2 (cos rot * x2 (mul2 size (sub2s m 0.5))
                      - sin rot * y2 (mul2 size (sub2s m 0.5)))
                     (sin rot * x2 (mul2 size (sub2s m 0.5))
                      + cos rot * y2 (mul2 size (sub2s m 0.5)))))
            (div2s size 2)).
  { intros m. unfold corner, drawPos. cbn [aRotation aPos aSize aSizeMult].
    by rewrite Rneb_nonzero. }
  split; [exact Hc|].
  cbn [map sizeMults pairs]. rewrite !Hc.
  destruct pos as [px py], size as [sx sy].
  unfold mean, add2, mul2, sub2s, div2s.
  cbn [x2 y2 fold_right length].
  replace (INR 4) with 4 by (simpl; lra).
  replace 0.5 with (/ 2) by lra. f_equal; field.
Qed.

Lemma rotated_corners_center_witness :
  mean (map (λ m, drawPos Rtrigo_def.cos Rtrigo_def.sin
                    (Build_attributes m (Vec2 10 20) (Vec2 4 6)
                       (Vec4 0 0 1 1) (Vec4 127 255 255 255) 1))
          sizeMults)
  = Vec2 (10 + 4 / 2) (20 + 6 / 2).
Proof.
  apply (rotated_corners_center Rtrigo_def.cos Rtrigo_def.sin
           (Vec2 10 20) (Vec2 4 6) (Vec4 0 0 1 1) (Vec4 127 255 255 255) 1).
  lra.
Defined.

End ShaderClaims.

(** * Further properties *)

(** ** A whole frame *)

Section WholeFrame.

Import JS.

Local Open Scope nat_scope.

Lemma draw_all_cons s ss this :
  draw_all this (s :: ss) = draw_all (draw this s) ss.
Proof. reflexivity. Qed.

Lemma draw_all_draws ss this :
  draws (draw_all this ss) = draws this + length ss.
Proof.
  revert this. induction ss as [|s ss IH]; intros this.
  - cbn. lia.
  - rewrite draw_all_cons, IH. unfold draw.
    rewrite drawImage_draws. cbn [length]. lia.
Qed.

Lemma draw_all_rest ss this : rest (draw_all this ss) = rest this.
Proof.
  revert this. induction ss as [|s ss IH]; intros this; [done|].
  by rewrite draw_all_cons, IH.
Qed.

Lemma draw_all_length ss this :
  length (arrayBuffer (draw_all this ss)) = length (arrayBuffer this).
Proof.
  revert this. induction ss as [|s ss IH]; intros this; [done|].
  rewrite draw_all_cons, IH. unfold draw. apply drawImage_length.
Qed.

Lemma draw_all_reachable ss this :
  reachable this → reachable (draw_all this ss).
Proof.
  revert this. induction ss as [|s ss IH]; intros this Hr; [done|].
  rewrite draw_all_cons. apply IH. unfold draw. by apply reach_drawImage.
Qed.

(** Once the buffer is full, further calls leave it as it is. *)
Lemma draw_all_past_end ss this :
  length (arrayBuffer this) ≤ draws this * 24 →
  arrayBuffer (draw_all this ss) = arrayBuffer this.
Proof.
  revert this. induction ss as [|s ss IH]; intros this H; [done|].
  rewrite draw_all_cons.
  assert (Hb : arrayBuffer (draw this s) = arrayBuffer this)
    by (unfold draw; by apply drawImage_past_end).
  rewrite IH, Hb; [done|].
  rewrite Hb. unfold draw. rewrite drawImage_draws. lia.
Qed.

(** The used prefix of the buffer after the calls of a frame: what was
    there, then the records of the calls that found room, in order. *)
Lemma draw_all_prefix ss this M :
  length (arrayBuffer this) = M * 24 →
  draws this ≤ M →
  take (Nat.min (draws this + length ss) M * 24)
       (arrayBuffer (draw_all this ss))
  = take (draws this * 24) (arrayBuffer this)
    ++ concat (map Sprite_bytes (take (M - draws this) ss)).
Proof.
  revert this. induction ss as [|s ss IH]; intros this Hlen Hd.
  - rewrite take_nil. cbn [draw_all fold_left length map concat].
    rewrite app_nil_r. f_equal. lia.
  - rewrite draw_all_cons.
    destruct (Nat.eq_dec (draws this) M) as [HM|HM].
    + assert (Hb : arrayBuffer (draw this s) = arrayBuffer this)
        by (unfold draw; apply drawImage_past_end; lia).
      rewrite draw_all_past_end.
      2:{ rewrite Hb. unfold draw. rewrite drawImage_draws. lia. }
      rewrite Hb.
      rewrite HM, Nat.sub_diag. cbn [take map concat].
      rewrite app_nil_r. f_equal. lia.
    + assert (Hrec : arrayBuffer (draw this s)
                     = take (draws this * 24) (arrayBuffer this)
                       ++ Sprite_bytes s
                       ++ drop (draws this * 24 + 24) (arrayBuffer this))
        by (unfold draw, Sprite_bytes; apply drawImage_record; lia).
      assert (Hd1 : draws (draw this s) = draws this + 1) by reflexivity.
      assert (Hl1 : length (arrayBuffer (draw this s))
                    = length (arrayBuffer this))
        by (unfold draw; apply drawImage_length).
      specialize (IH (draw this s)).
      rewrite Hd1, Hl1 in IH.
      specialize (IH Hlen ltac:(lia)).
      replace (draws this + length (s :: ss)) with (draws this + 1 + length ss)
        by (cbn [length]; lia).
      rewrite IH, Hrec.
      replace (M - draws this) with (S (M - (draws this + 1))) by lia.
      cbn [take map concat].
      rewrite (app_assoc _ (Sprite_bytes s) (drop _ _)), take_app_length';
        [by rewrite <- app_assoc|].
      rewrite length_app, length_take.
      change (length (Sprite_bytes s)) with 24. lia.
Qed.

(** X1. From an empty frame, the calls [ss] of [drawImage] followed by
    [drawEverything] upload, at offset 0, the records of the first
    [maxDraws] calls in the order of the calls, whatever the buffer held
    before, and submit as many instances as there were calls; calls past
    [maxDraws] are counted but their records are lost. *)
Theorem frame_upload this ss :
  reachable this →
  draws this = 0 →
  let this' := draw_all this ss in
  new_calls this' (drawEverything this')
  = [ GL.clear GL.COLOR_BUFFER_BIT;
      GL.bufferSubData GL.ARRAY_BUFFER 0
        (concat (map Sprite_bytes (take (maxDraws this) ss)));
      GL.drawElementsInstancedANGLE GL.TRIANGLES 6 GL.UNSIGNED_BYTE 0
        (length ss) ]
  ∧ draws (drawEverything this') = 0
  ∧ maxDraws (drawEverything this') = maxDraws this.
Proof.
  intros Hr H0 this'.
  pose proof (reachable_buffer_length _ Hr) as Hlen.
  pose proof (draw_all_rest ss this) as Hrest. fold this' in Hrest.
  assert (HM : maxDraws this' = maxDraws this) by (by injection Hrest).
  split; [|split; [reflexivity | exact HM]].
  rewrite (drawEverything_new_calls this') by (by apply draw_all_reachable).
  assert (Hd : draws this' = length ss)
    by (unfold this'; rewrite draw_all_draws, H0; lia).
  pose proof (draw_all_prefix ss this (maxDraws this) Hlen ltac:(lia)) as P.
  rewrite H0 in P. cbn [Nat.add Nat.mul take app] in P.
  rewrite Nat.sub_0_r in P. fold this' in P.
  by rewrite Hd, HM, P.
Qed.

Lemma frame_upload_witness :
  let this := drawEverything
                (setup (set_maxDraws 2 gl1_literal) (Build_Canvas 640 480)) in
  let s x := Build_Sprite (num 0) (num 0) (num 1) (num 1) (num x) (num x)
               (num 8) (num 8) Undefined Undefined in
  let this' := draw_all this [s 1; s 2; s 3]%Z in
  submissions (new_calls this' (drawEverything this')) = [(GL.TRIANGLES, 6, 3)]
  ∧ uploads (new_calls this' (drawEverything this'))
    = [(0, Sprite_bytes (s 1%Z) ++ Sprite_bytes (s 2%Z) ++ [])].
Proof.
  intros this s this'.
  assert (Hr : reachable this) by (apply reach_drawEverything, reach_setup).
  destruct (frame_upload this [s 1; s 2; s 3]%Z Hr eq_refl) as (C & _).
  fold this' in C. rewrite C. split; reflexivity.
Defined.

(** X2. In every reachable state the buffer has [maxDraws * 24] bytes and the
    context declares the attributes as [setup] did: no method allocates
    the buffer again, changes its size or declares an attribute. *)
Theorem buffer_and_layout_fixed this :
  reachable this →
  length (arrayBuffer this) = maxDraws this * 24
  ∧ declared_layout (gl this)
    = [ (Some (2, GL.SHORT, 24, 0), Some 1);
        (Some (2, GL.SHORT, 24, 4), Some 1);
        (Some (4, GL.SHORT, 24, 8), Some 1);
        (Some (4, GL.UNSIGNED_BYTE, 24, 16), Some 1);
        (Some (1, GL.FLOAT, 24, 20), Some 1) ]
  ∧ GL.attribute "aSizeMult" (gl this) = Some (2, GL.FLOAT, 0, 0)
  ∧ GL.divisor "aSizeMult" (gl this) = None.
Proof.
  intros Hr. split; [by apply reachable_buffer_length|].
  split; [by apply reachable_layout|].
  induction Hr as [n c| | this _ IH | this _ IH | this image _ IH
                  | this image _ IH | ]; try assumption.
  - split; reflexivity.
  - unfold drawEverything, gl_calls. cbn [gl set_draws set_gl].
    rewrite attribute_app, divisor_app. exact IH.
  - unfold resize, gl_calls. cbn [gl set_gl].
    rewrite attribute_app, divisor_app. exact IH.
  - unfold loadTexFromJsImage, resize, gl_calls.
    cbn [gl set_gl set_texSize set_jsImage canvas texSizeX texSizeY].
    rewrite !attribute_app, !divisor_app. exact IH.
  - unfold image_onload, loadTexFromJsImage, resize, gl_calls.
    cbn [gl set_gl set_texSize set_jsImage set_ready canvas texSizeX texSizeY].
    rewrite !attribute_app, !divisor_app. exact IH.
Qed.

Lemma buffer_and_layout_fixed_witness :
  let this := drawEverything
                (loadTexFromJsImage
                   (setup (set_maxDraws 2 gl1_literal) (Build_Canvas 640 480))
                   (GL.Build_Image 64 32)) in
  length (arrayBuffer this) = 48.
Proof.
  intros this.
  assert (Hr : reachable this)
    by (apply reach_drawEverything, reach_loadTexFromJsImage, reach_setup).
  destruct (buffer_and_layout_fixed this Hr) as (L & _). exact L.
Defined.

End WholeFrame.

(** ** The viewport, the uniforms and the texture *)

Section Context.

Import JS.

Local Open Scope nat_scope.

Lemma current_viewport_app ctx cs :
  GL.current_viewport (ctx ++ cs)
  = fold_left (λ acc c,
      match c with
      | GL.viewport x y w h => Some (x, y, w, h)
      | _ => acc
      end) cs (GL.current_viewport ctx).
Proof. apply fold_left_app. Qed.

Lemma uniform_float_app name ctx cs :
  GL.uniform_float name (ctx ++ cs)
  = fold_left (λ acc c,
      match c with
      | GL.uniform1f n v => if String.eqb n name then Some v else acc
      | _ => acc
      end) cs (GL.uniform_float name ctx).
Proof. apply fold_left_app. Qed.

Lemma uniform_float2_app name ctx cs :
  uniform_float2 name (ctx ++ cs)
  = fold_left (λ acc c,
      match c with
      | GL.uniform2f n v0 v1 =>
          if String.eqb n name then Some (v0, v1) else acc
      | _ => acc
      end) cs (uniform_float2 name ctx).
Proof. apply fold_left_app. Qed.




(** X4. [loadTexFromJsImage] keeps the image and its size, sets the uniform
    [uTexSize] to that size and, through [resize], the viewport and the
    scale uniforms to the size of the canvas; it uploads nothing into the
    vertex buffer, submits no draw, and keeps the buffer, [draws],
    [maxDraws] and [ready], so the images drawn so far in the frame stay
    pending. *)
Theorem loadTexFromJsImage_spec this image :
  let this' := loadTexFromJsImage this image in
  let w := width (canvas this) in
  let h := height (canvas this) in
  jsImage this' = Some image
  ∧ (texSizeX this', texSizeY this')
    = (GL.image_width image, GL.image_height image)
  ∧ uniform_float2 "uTexSize" (gl this')
    = Some (IZR (GL.image_width image), IZR (GL.image_height image))
  ∧ scale_uniforms this' = (Some (IZR w / 2)%R, Some (IZR h / 2)%R)
  ∧ GL.current_viewport (gl this') = Some (0, 0, w, h)%Z
  ∧ uploads (new_calls this this') = []
  ∧ submissions (new_calls this this') = []
  ∧ (arrayBuffer this', draws this', maxDraws this', ready this', canvas this')
    = (arrayBuffer this, draws this, maxDraws this, ready this, canvas this).
Proof.
  intros this' w h.
  split; [reflexivity|]. split; [reflexivity|].
  assert (Hgl : ∃ cs, gl this' = gl this ++ cs
                      ∧ uniform_float2 "uTexSize" (gl this ++ cs)
                        = Some (IZR (GL.image_width image),
                                IZR (GL.image_height image))
                      ∧ uploads cs = [] ∧ submissions cs = []).
  { eexists. split; [|split; [|split]].
    - unfold this', loadTexFromJsImage, resize, gl_calls.
      cbn [gl set_gl set_texSize set_jsImage canvas texSizeX texSizeY].
      rewrite <- !app_assoc. reflexivity.
    - by rewrite uniform_float2_app.
    - reflexivity.
    - reflexivity. }
  destruct Hgl as (cs & Hgl & HT & HU & HS).
  split; [by rewrite Hgl|].
  split; [|split].
  - unfold scale_uniforms, this', loadTexFromJsImage, resize, gl_calls.
    cbn [gl set_gl set_texSize set_jsImage canvas texSizeX texSizeY].
    by rewrite !uniform_float_app.
  - unfold this', loadTexFromJsImage, resize, gl_calls.
    cbn [gl set_gl set_texSize set_jsImage canvas texSizeX texSizeY].
    by rewrite current_viewport_app.
  - unfold new_calls. rewrite Hgl, drop_app_length. by rewrite HU, HS.
Qed.

(** X5. [setupAttribute] declares the attribute at the current [byteOffset]
    with the stride of the record and divisor 1, leaves the declarations of
    the attributes of other names as they were, and advances [byteOffset]
    by the bytes of the attribute: each attribute starts where the one
    before ends. *)
Theorem setupAttribute_spec bytesPerImage0 name dataType amount ctx byteOffset :
  let s := setupAttribute bytesPerImage0 name dataType amount
             (ctx, byteOffset) in
  snd s = byteOffset + amount * component_size dataType
  ∧ GL.attribute name (fst s)
    = Some (amount, dataType, bytesPerImage0, byteOffset)
  ∧ GL.divisor name (fst s) = Some 1
  ∧ ∀ other, other ≠ name →
      GL.attribute other (fst s) = GL.attribute other ctx
      ∧ GL.divisor other (fst s) = GL.divisor other ctx.
Proof.
  intros s. unfold s, setupAttribute. cbn [fst snd].
  split; [|split; [|split]].
  - unfold component_size. destruct dataType; cbn [GL.enum_eqb]; lia.
  - rewrite attribute_app. cbn [fold_left]. by rewrite String.eqb_refl.
  - rewrite divisor_app. cbn [fold_left]. by rewrite String.eqb_refl.
  - intros other Hne. rewrite attribute_app, divisor_app. cbn [fold_left].
    assert (E : String.eqb name other = false)
      by (apply String.eqb_neq; congruence).
    by rewrite E.
Qed.

Lemma setupAttribute_spec_witness :
  let s1 := setupAttribute 24 "aPos" GL.SHORT 2 ([], 0) in
  let s2 := setupAttribute 24 "aSize" GL.SHORT 2 (fst s1, snd s1) in
  GL.attribute "aPos" (fst s2) = GL.attribute "aPos" (fst s1)
  ∧ snd s2 = snd s1 + 2 * 2.
Proof.
  intros s1 s2.
  destruct (setupAttribute_spec 24 "aSize" GL.SHORT 2 (fst s1) (snd s1))
    as (O & _ & _ & F).
  split; [apply (F "aPos"%string); discriminate | exact O].
Defined.

End Context.

(** ** The vertex stage on the uniforms of the renderer *)

Section ShaderOnContext.

Import Shader.

Local Open Scope R_scope.

Lemma resize_uniforms this :
  uCanvasSizeX (current_uniforms (resize this)) = IZR (width (canvas this)) / 2
  ∧ uCanvasSizeY (current_uniforms (resize this))
    = IZR (height (canvas this)) / 2.
Proof.
  unfold current_uniforms, resize, gl_calls. cbn [gl set_gl uCanvasSizeX
    uCanvasSizeY]. by rewrite !uniform_float_app.
Qed.

Lemma loadTexFromJsImage_uTexSize this image :
  uTexSize (current_uniforms (loadTexFromJsImage this image))
  = Vec2 (IZR (GL.image_width image)) (IZR (GL.image_height image)).
Proof.
  unfold current_uniforms, loadTexFromJsImage, resize, gl_calls.
  cbn [gl set_gl set_texSize set_jsImage canvas texSizeX texSizeY uTexSize].
  by rewrite !uniform_float2_app.
Qed.

(** X6. After [resize] on a canvas of size (w, h), neither 0, the vertex stage
    sends the screen position (x, y) of a corner to the clip position
    (2x/w - 1, 1 - 2y/h, 0, 1): the top left pixel corner of the canvas
    goes to (-1, 1) and the bottom right one to (1, -1), the vertical axis
    being flipped. *)
Theorem pixel_to_clip this cos sin pow a texPos rgba :
  width (canvas this) ≠ 0%Z →
  height (canvas this) ≠ 0%Z →
  let W := IZR (width (canvas this)) in
  let H := IZR (height (canvas this)) in
  let u := current_uniforms (resize this) in
  let whole m := Build_attributes m (Vec2 0 0) (Vec2 W H) texPos rgba 0 in
  gl_Position (vert_main cos sin pow u a)
  = Vec4 (2 * x2 (drawPos cos sin a) / W - 1)
         (1 - 2 * y2 (drawPos cos sin a) / H) 0 1
  ∧ gl_Position (vert_main cos sin pow u (whole (Vec2 0 0))) = Vec4 (-1) 1 0 1
  ∧ gl_Position (vert_main cos sin pow u (whole (Vec2 1 1))) = Vec4 1 (-1) 0 1.
Proof.
  intros Hw Hh W H u whole.
  assert (HW : W ≠ 0) by (by apply not_0_IZR).
  assert (HH : H ≠ 0) by (by apply not_0_IZR).
  destruct (resize_uniforms this) as [Ux Uy]. fold u W H in Ux, Uy.
  assert (G : ∀ b, gl_Position (vert_main cos sin pow u b)
                   = Vec4 (2 * x2 (drawPos cos sin b) / W - 1)
                          (1 - 2 * y2 (drawPos cos sin b) / H) 0 1).
  { intros b. cbn [vert_main gl_Position]. rewrite Ux, Uy.
    f_equal; field; assumption. }
  split; [apply G|]. rewrite !G. unfold whole, drawPos.
  cbn [aRotation aPos aSize aSizeMult]. rewrite Rneb_0.
  unfold add2, mul2. cbn [x2 y2]. split; f_equal; field; assumption.
Qed.

Lemma pixel_to_clip_witness :
  let this := setup (set_maxDraws 2 gl1_literal) (Build_Canvas 640 480) in
  let u := current_uniforms (resize this) in
  gl_Position
    (vert_main Rtrigo_def.cos Rtrigo_def.sin Rpower u
       (Build_attributes (Vec2 1 1) (Vec2 0 0) (Vec2 640 480)
          (Vec4 0 0 1 1) (Vec4 127 255 255 255) 0))
  = Vec4 1 (-1) 0 1.
Proof.
  intros this u.
  apply (pixel_to_clip this Rtrigo_def.cos Rtrigo_def.sin Rpower
           (Build_attributes (Vec2 0 0) (Vec2 0 0) (Vec2 0 0) (Vec4 0 0 1 1)
              (Vec4 127 255 255 255) 0)
           (Vec4 0 0 1 1) (Vec4 127 255 255 255));
    discriminate.
Defined.

(** X7. After [loadTexFromJsImage] of an image of size (W, H), the texture
    coordinate of the corner [m] of a texture rectangle (x, y, w, h) is
    ((x + w * m.x) / W, (y + h * m.y) / H); for a rectangle inside the
    image it lies in the unit square, so the sprite samples nothing
    outside the image. *)
Theorem texture_coordinates this image cos sin pow m pos size
    (tx ty tw th : Z) a b g r rot :
  let W := GL.image_width image in
  let H := GL.image_height image in
  (0 < W)%Z → (0 < H)%Z →
  (0 ≤ tx ∧ 0 ≤ tw ∧ tx + tw ≤ W)%Z →
  (0 ≤ ty ∧ 0 ≤ th ∧ ty + th ≤ H)%Z →
  0 <= x2 m <= 1 → 0 <= y2 m <= 1 →
  let u := current_uniforms (loadTexFromJsImage this image) in
  let t := fragTexturePos
             (vert_main cos sin pow u
                (instance m pos size (tx, ty, tw, th) a b g r rot)) in
  t = Vec2 ((IZR tx + IZR tw * x2 m) / IZR W) ((IZR ty + IZR th * y2 m) / IZR H)
  ∧ 0 <= x2 t <= 1 ∧ 0 <= y2 t <= 1.
Proof.
  intros W H HW HH (Hx0 & Hw0 & Hx1) (Hy0 & Hh0 & Hy1) Hmx Hmy u t.
  assert (Ht : t = Vec2 ((IZR tx + IZR tw * x2 m) / IZR W)
                        ((IZR ty + IZR th * y2 m) / IZR H)).
  { unfold t, u. cbn [vert_main fragTexturePos instance aTexPos aSizeMult].
    rewrite loadTexFromJsImage_uTexSize. reflexivity. }
  split; [exact Ht|]. rewrite Ht. cbn [x2 y2].
  apply IZR_lt in HW, HH. apply IZR_le in Hx0, Hw0, Hx1, Hy0, Hh0, Hy1.
  rewrite plus_IZR in Hx1, Hy1.
  assert (B : ∀ p q k d, 0 < d → 0 <= p → 0 <= q → p + q <= d →
                0 <= k <= 1 → 0 <= (p + q * k) / d <= 1).
  { intros p q k d Hd Hp Hq Hpq Hk.
    assert (0 <= p + q * k <= d) by nra.
    split.
    - apply Rmult_le_reg_r with d; [done|].
      unfold Rdiv. rewrite Rmult_assoc, Rinv_l by lra. lra.
    - apply Rmult_le_reg_r with d; [done|].
      unfold Rdiv. rewrite Rmult_assoc, Rinv_l by lra. lra. }
  split; apply B; assumption.
Qed.

Lemma texture_coordinates_witness :
  let this := setup (set_maxDraws 2 gl1_literal) (Build_Canvas 640 480) in
  let u := current_uniforms (loadTexFromJsImage this (GL.Build_Image 64 32)) in
  let t := fragTexturePos
             (vert_main Rtrigo_def.cos Rtrigo_def.sin Rpower u
                (instance (Vec2 1 1) (0, 0)%Z (8, 8)%Z (16, 8, 16, 8)%Z
                   127 255 255 255 0)) in
  0 <= x2 t <= 1 ∧ 0 <= y2 t <= 1.
Proof.
  intros this u t.
  apply (texture_coordinates this (GL.Build_Image 64 32)
           Rtrigo_def.cos Rtrigo_def.sin Rpower (Vec2 1 1) (0, 0)%Z (8, 8)%Z
           16 8 16 8 127 255 255 255 0);
    cbn [GL.image_width GL.image_height x2 y2]; lia || lra.
Defined.

(** X8. With the cosine and the sine of the reals, a corner stays at the
    distance from the centre drawPos + drawSize / 2 it has without
    rotation, for every rotation: rotating neither stretches nor shrinks
    the sprite. *)
Theorem rotation_keeps_distance pos size texPos rgba rot m :
  let c := drawPos cos sin (Build_attributes m pos size texPos rgba rot) in
  let centre := add2 pos (div2s size 2) in
  (x2 c - x2 centre) * (x2 c - x2 centre)
  + (y2 c - y2 centre) * (y2 c - y2 centre)
  = (x2 size * (x2 m - / 2)) * (x2 size * (x2 m - / 2))
    + (y2 size * (y2 m - / 2)) * (y2 size * (y2 m - / 2)).
Proof.
  intros c centre. unfold c, centre, drawPos.
  cbn [aRotation aPos aSize aSizeMult].
  destruct pos as [px py], size as [sx sy], m as [mx my].
  destruct (Rneb rot 0); unfold add2, mul2, sub2s, div2s; cbn [x2 y2];
    replace 0.5 with (/ 2) by lra.
  - pose proof (sin2_cos2 rot) as T. unfold Rsqr in T.
    set (X := sx * (mx - / 2)). set (Y := sy * (my - / 2)).
    replace (px + (cos rot * X - sin rot * Y) + sx / 2 - (px + sx / 2))
      with (cos rot * X - sin rot * Y) by lra.
    replace (py + (sin rot * X + cos rot * Y) + sy / 2 - (py + sy / 2))
      with (sin rot * X + cos rot * Y) by lra.
    replace ((cos rot * X - sin rot * Y) * (cos rot * X - sin rot * Y)
             + (sin rot * X + cos rot * Y) * (sin rot * X + cos rot * Y))
      with ((sin rot * sin rot + cos rot * cos rot) * (X * X + Y * Y))
      by ring.
    rewrite T. ring.
  - field.
Qed.

(** X9. With the cosine and the sine of the reals: a full turn gives the
    corners of the sprite without rotation; a half turn sends each corner
    to the opposite one; a quarter turn sends the offset (X, Y) from the
    centre to (-Y, X), which on the screen, where y grows downwards, is a
    clockwise turn. *)
Theorem rotation_turns pos size texPos rgba m :
  let corner rot := drawPos cos sin (Build_attributes m pos size texPos rgba rot) in
  let centre := add2 pos (div2s size 2) in
  corner (2 * PI) = corner 0
  ∧ corner PI = add2 pos (mul2 size (Vec2 (1 - x2 m) (1 - y2 m)))
  ∧ corner (PI / 2)
    = add2 centre (Vec2 (- (y2 size * (y2 m - / 2))) (x2 size * (x2 m - / 2))).
Proof.
  intros corner centre.
  pose proof PI_RGT_0 as HPI.
  unfold corner, centre, drawPos. cbn [aRotation aPos aSize aSizeMult].
  rewrite Rneb_0, !Rneb_nonzero by lra.
  rewrite cos_2PI, sin_2PI, cos_PI, sin_PI, cos_PI2, sin_PI2.
  destruct pos as [px py], size as [sx sy], m as [mx my].
  unfold add2, mul2, sub2s, div2s. cbn [x2 y2].
  replace 0.5 with (/ 2) by lra.
  repeat split; f_equal; field.
Qed.

(** X10. In the brightening range of the tint, a > 127, sixteen more steps of
    a double the colour multiplier, and the opacity stays 1. *)
Theorem brighten_doubles (a b g r : R) :
  a > 127 →
  let t := decode_tint Rpower (Vec4 a b g r) in
  let t' := decode_tint Rpower (Vec4 (a + 16) b g r) in
  t' = Vec4 (2 * x t) (2 * y t) (2 * z t) 1 ∧ w t = 1.
Proof.
  intros Ha t t'.
  assert (G : ∀ v, v > 127 → Rgtb v 127 = true).
  { intros v Hv. unfold Rgtb. by destruct (Rgt_dec v 127). }
  unfold t, t', decode_tint. cbn [x y z w]. rewrite !G by lra. cbn [x y z w].
  split; [|reflexivity].
  replace ((a + 16 - 127) / 16) with ((a - 127) / 16 + 1) by lra.
  rewrite Rpower_plus, Rpower_1 by lra.
  f_equal; field.
Qed.

Lemma brighten_doubles_witness :
  x (decode_tint Rpower (Vec4 (128 + 16) 0 0 255))
  = 2 * x (decode_tint Rpower (Vec4 128 0 0 255)).
Proof.
  destruct (brighten_doubles 128 0 0 255 ltac:(lra)) as (E & _).
  rewrite E. reflexivity.
Defined.

End ShaderOnContext.

(** ** Arguments at the edges *)

Section EdgeArguments.

Import JS.

Local Open Scope nat_scope.

Lemma not_finite_ToInt16 v : not_finite v → ToInt16 (ToNumber v) = 0%Z.
Proof. by intros [-> | [-> | [s ->]]]. Qed.

Lemma falsy_or v d : falsy v → or v d = d.
Proof. by intros [-> | [-> | [s ->]]]. Qed.

(** X12. A tint that is NaN or a zero of either sign is stored as the default
    tint, like an omitted one; a rotation that is NaN or [-0] is stored as
    the float [+0], all bits 0, so no NaN and no negative zero reaches the
    rotation attribute through these arguments. *)
Theorem drawImage_falsy_arguments this tx ty tw th dx dy sx sy rgba rotation :
  reachable this →
  draws this < maxDraws this →
  let this' := drawImage this tx ty tw th dx dy sx sy rgba rotation in
  let k := draws this in
  (falsy rgba →
   instance_attribute this' "aRgba" k = Some [127; 255; 255; 255]%Z)
  ∧ (falsy rotation →
     instance_attribute this' "aRotation" k = Some [0%Z]
     ∧ take 4 (drop (k * 24 + 20) (arrayBuffer this')) = [0; 0; 0; 0]%Z).
Proof.
  intros Hr Hk this' k.
  pose proof (reachable_buffer_length _ Hr) as Hlen.
  destruct (drawImage_fetch this tx ty tw th dx dy sx sy rgba rotation Hr Hk)
    as (_ & _ & _ & F4 & F5).
  fold this' k in F4, F5. split.
  - intros Hf. rewrite F4, falsy_or by done. reflexivity.
  - intros Hf. split.
    + rewrite F5, falsy_or by done. reflexivity.
    + unfold this'. rewrite drawImage_record by lia. fold k.
      rewrite drop_app_add' by (rewrite length_take; unfold k; lia).
      unfold SpriteRecord_bytes. rewrite (falsy_or rotation) by done.
      cbn [le_bytes app drop take]. reflexivity.
Qed.

Lemma drawImage_falsy_arguments_witness :
  let this := setup (set_maxDraws 2 gl1_literal) (Build_Canvas 640 480) in
  let this' := drawImage this (num 0) (num 0) (num 1) (num 1) (num 5) (num 6)
                 (num 7) (num 8) (Number NaN) (Number (S754_zero true)) in
  instance_attribute this' "aRgba" 0 = Some [127; 255; 255; 255]%Z
  ∧ instance_attribute this' "aRotation" 0 = Some [0%Z].
Proof.
  intros this this'.
  assert (Hr : reachable this) by constructor.
  assert (Hk : draws this < maxDraws this) by (cbn; lia).
  destruct (drawImage_falsy_arguments this (num 0) (num 0) (num 1) (num 1)
              (num 5) (num 6) (num 7) (num 8) (Number NaN)
              (Number (S754_zero true)) Hr Hk) as (T & R).
  split.
  - apply T. right. left. reflexivity.
  - apply R. right. right. by exists true.
Defined.

(** X13. A position, size or texture-rectangle argument that is omitted, NaN or
    infinite is stored as 0, without an error: called with none of the
    eight, [drawImage] queues a sprite of size 0 at the origin. *)
Theorem drawImage_not_finite_arguments this tx ty tw th dx dy sx sy
    rgba rotation :
  reachable this →
  draws this < maxDraws this →
  let this' := drawImage this tx ty tw th dx dy sx sy rgba rotation in
  let k := draws this in
  (not_finite dx → not_finite dy →
   instance_attribute this' "aPos" k = Some [0; 0]%Z)
  ∧ (not_finite sx → not_finite sy →
     instance_attribute this' "aSize" k = Some [0; 0]%Z)
  ∧ (not_finite tx → not_finite ty → not_finite tw → not_finite th →
     instance_attribute this' "aTexPos" k = Some [0; 0; 0; 0]%Z)
  ∧ draws this' = k + 1.
Proof.
  intros Hr Hk this' k.
  destruct (drawImage_fetch this tx ty tw th dx dy sx sy rgba rotation Hr Hk)
    as (F1 & F2 & F3 & _).
  fold this' k in F1, F2, F3.
  split; [|split; [|split; [|reflexivity]]].
  - intros H1 H2. by rewrite F1, !not_finite_ToInt16.
  - intros H1 H2. by rewrite F2, !not_finite_ToInt16.
  - intros H1 H2 H3 H4. by rewrite F3, !not_finite_ToInt16.
Qed.

Lemma drawImage_not_finite_arguments_witness :
  let this := setup (set_maxDraws 2 gl1_literal) (Build_Canvas 640 480) in
  let this' := drawImage this Undefined Undefined Undefined Undefined
                 Undefined (Number Infinity) (Number NaN) Undefined
                 Undefined Undefined in
  instance_attribute this' "aPos" 0 = Some [0; 0]%Z
  ∧ instance_attribute this' "aSize" 0 = Some [0; 0]%Z
  ∧ instance_attribute this' "aTexPos" 0 = Some [0; 0; 0; 0]%Z.
Proof.
  intros this this'.
  assert (Hr : reachable this) by constructor.
  assert (Hk : draws this < maxDraws this) by (cbn; lia).
  destruct (drawImage_not_finite_arguments this Undefined Undefined Undefined
              Undefined Undefined (Number Infinity) (Number NaN) Undefined
              Undefined Undefined Hr Hk) as (P & S & T & _).
  assert (U : not_finite Undefined) by (by left).
  split; [|split].
  - apply P; [exact U | right; right; by exists false].
  - apply S; [right; by left | exact U].
  - apply T; exact U.
Defined.

(** X14. [drawRect] queues one sprite whose texture rectangle is the pixel at
    the origin of the texture, (0, 0, 1, 1), with the position, size, tint
    and rotation [drawImage] would store; in the vertex stage the corner
    [m] of that rectangle has the texture coordinate m / uTexSize. *)
Theorem drawRect_record this dx dy sx sy rgba rotation :
  reachable this →
  draws this < maxDraws this →
  let this' := drawRect this dx dy sx sy rgba rotation in
  let k := draws this in
  draws this' = k + 1
  ∧ reachable this'
  ∧ instance_attribute this' "aTexPos" k = Some [0; 0; 1; 1]%Z
  ∧ instance_attribute this' "aPos" k
    = Some [ToInt16 (ToNumber dx); ToInt16 (ToNumber dy)]
  ∧ instance_attribute this' "aSize" k
    = Some [ToInt16 (ToNumber sx); ToInt16 (ToNumber sy)]
  ∧ instance_attribute this' "aRgba" k
    = Some (le_bytes 4
              (ToUint32 (ToNumber (or rgba (Number (int 0xFFFFFF7F))))))
  ∧ ∀ cos sin pow u m pos size a b g r rot,
      Shader.fragTexturePos
        (Shader.vert_main cos sin pow u
           (Shader.instance m pos size (0, 0, 1, 1)%Z a b g r rot))
      = Shader.Vec2 (Shader.x2 m / Shader.x2 (Shader.uTexSize u))%R
                    (Shader.y2 m / Shader.y2 (Shader.uTexSize u))%R.
Proof.
  intros Hr Hk this' k.
  destruct (drawImage_fetch this (num 0) (num 0) (num 1) (num 1) dx dy sx sy
              rgba rotation Hr Hk) as (F1 & F2 & F3 & F4 & _).
  unfold this', k, drawRect.
  split; [reflexivity|]. split; [by apply reach_drawImage|].
  split; [exact F3|]. split; [exact F1|]. split; [exact F2|].
  split; [exact F4|].
  intros cos sin pow u m pos size a b g r rot.
  cbn [Shader.vert_main Shader.fragTexturePos Shader.instance Shader.aTexPos
       Shader.aSizeMult].
  unfold Shader.div2, Shader.add2, Shader.mul2, Shader.xy, Shader.zw.
  cbn [Shader.x2 Shader.y2 Shader.x Shader.y Shader.z Shader.w].
  f_equal; unfold Rdiv; ring.
Qed.

Lemma drawRect_record_witness :
  let this := setup (set_maxDraws 2 gl1_literal) (Build_Canvas 640 480) in
  let this' := drawRect this (num 5) (num 6) (num 7) (num 8)
                 Undefined Undefined in
  instance_attribute this' "aTexPos" 0 = Some [0; 0; 1; 1]%Z
  ∧ instance_attribute this' "aSize" 0 = Some [7; 8]%Z.
Proof.
  intros this this'.
  assert (Hr : reachable this) by constructor.
  assert (Hk : draws this < maxDraws this) by (cbn; lia).
  destruct (drawRect_record this (num 5) (num 6) (num 7) (num 8)
              Undefined Undefined Hr Hk) as (_ & _ & T & _ & S & _).
  split; [exact T | exact S].
Defined.

End EdgeArguments.

(** ** Uploads and the range of the tint *)

Section Bounds.

Import JS.

Local Open Scope nat_scope.

Lemma uploads_app cs1 cs2 : uploads (cs1 ++ cs2) = uploads cs1 ++ uploads cs2.
Proof. apply omap_app. Qed.

(** X15. Every upload into the vertex buffer made so far, in any reachable
    state, starts at offset 0 and has at most [maxDraws * 24] bytes, the
    size [setup] gave to the buffer of the GPU: no [drawEverything] writes
    past its end, however many images were drawn. *)
Theorem uploads_fit this :
  reachable this →
  Forall (λ u, u.1 = 0 ∧ length u.2 ≤ maxDraws this * 24) (uploads (gl this)).
Proof.
  induction 1 as [n c| | this Hr IH | this _ IH | this image _ IH
                 | this image _ IH | ]; try assumption.
  - apply Forall_nil_2.
  - pose proof (reachable_buffer_length _ Hr) as Hlen.
    unfold drawEverything, gl_calls. cbn [gl set_draws set_gl maxDraws].
    rewrite uploads_app. apply Forall_app_2; [exact IH|].
    cbn [uploads omap]. apply Forall_cons_2; [|apply Forall_nil_2].
    cbn [fst snd]. split; [reflexivity|].
    unfold subarray_bytes. rewrite length_take, length_drop. lia.
  - unfold resize, gl_calls. cbn [gl set_gl maxDraws].
    rewrite uploads_app. cbn [uploads omap]. by rewrite app_nil_r.
  - unfold loadTexFromJsImage, resize, gl_calls.
    cbn [gl set_gl set_texSize set_jsImage canvas texSizeX texSizeY maxDraws].
    rewrite !uploads_app. cbn [uploads omap]. by rewrite !app_nil_r.
  - unfold image_onload, loadTexFromJsImage, resize, gl_calls.
    cbn [gl set_gl set_texSize set_jsImage set_ready canvas texSizeX texSizeY
         maxDraws].
    rewrite !uploads_app. cbn [uploads omap]. by rewrite !app_nil_r.
Qed.

Lemma uploads_fit_witness :
  let this0 := setup (set_maxDraws 1 gl1_literal) (Build_Canvas 640 480) in
  let this := drawEverything
                (drawImage
                   (drawImage this0 (num 0) (num 0) (num 1) (num 1) (num 5)
                      (num 6) (num 7) (num 8) Undefined Undefined)
                   (num 0) (num 0) (num 1) (num 1) (num 9) (num 9) (num 9)
                   (num 9) Undefined Undefined) in
  Forall (λ u, u.1 = 0 ∧ length u.2 ≤ 24) (uploads (gl this)).
Proof.
  intros this0 this.
  apply (uploads_fit this).
  subst this this0.
  apply reach_drawEverything, reach_drawImage, reach_drawImage, reach_setup.
Defined.

End Bounds.

Section TintRange.

Import Shader.

Local Open Scope R_scope.

(** X11. For tint bytes (a, b, g, r): with a <= 127 the three colour
    multipliers and the opacity lie between 0 and 1, so the tint can only
    darken or fade; with a > 127 the opacity is 1 and each colour
    multiplier is at least the one of the same colour at a = 127, so the
    tint can only brighten. *)
Theorem tint_ranges (a b g r : Z) :
  (0 ≤ a ≤ 255 ∧ 0 ≤ b ≤ 255 ∧ 0 ≤ g ≤ 255 ∧ 0 ≤ r ≤ 255)%Z →
  let t := decode_tint Rpower (Vec4 (IZR a) (IZR b) (IZR g) (IZR r)) in
  let t127 := decode_tint Rpower (Vec4 127 (IZR b) (IZR g) (IZR r)) in
  ((a ≤ 127)%Z →
   0 <= x t <= 1 ∧ 0 <= y t <= 1 ∧ 0 <= z t <= 1 ∧ 0 <= w t <= 1)
  ∧ ((127 < a)%Z →
     x t127 <= x t ∧ y t127 <= y t ∧ z t127 <= z t ∧ w t = 1 ∧ w t127 = 1).
Proof.
  intros ((Ha0 & Ha1) & (Hb0 & Hb1) & (Hg0 & Hg1) & (Hr0 & Hr1)) t t127.
  apply IZR_le in Ha0, Ha1, Hb0, Hb1, Hg0, Hg1, Hr0, Hr1.
  assert (H127 : Rgtb 127 127 = false) by apply (Rgtb_IZR 127).
  unfold t, t127, decode_tint. cbn [x y z w]. rewrite H127, Rgtb_IZR.
  split; intros Ha.
  - destruct (Z.leb_spec a 127) as [_|?]; [|lia]. cbn [negb x y z w].
    apply IZR_le in Ha. repeat split; lra.
  - destruct (Z.leb_spec a 127) as [?|_]; [lia|]. cbn [negb x y z w].
    apply IZR_lt in Ha.
    assert (P : 1 <= Rpower 2 ((IZR a - 127) / 16)).
    { rewrite <- (Rpower_O 2) by lra. apply Rle_Rpower; lra. }
    repeat split; try lra; nra.
Qed.

Lemma tint_ranges_witness :
  let t := decode_tint Rpower (Vec4 200 0 0 255) in
  x (decode_tint Rpower (Vec4 127 0 0 255)) <= x t ∧ w t = 1.
Proof.
  intros t.
  destruct (tint_ranges 200 0 0 255 ltac:(lia)) as (_ & B).
  destruct (B ltac:(lia)) as (X & _ & _ & W & _).
  split; [exact X | exact W].
Defined.

End TintRange.
